(** * NoteTaker: the note service of app.py over the store of database.py

    The development follows the two source files.  The SQLite table
    [notes] is a list of rows in rowid order together with the
    AUTOINCREMENT counter; the uploads directory is a finite map from
    path strings to nodes; every handler is a computation in a small
    state-and-exception monad over that world.  What the host supplies
    (clock, uuid4, the MIME table) is a parameter of the model.

    Looking a path up can fail as [os.stat] fails: a name longer than
    the file system takes, and a path the process may not look up,
    raise an [OSError].  LIKE reads its operands up to their first NUL
    character.

    Outside the model: failures of the database file and of writes to
    the uploads directory, integers beyond SQLite's 64-bit INTEGER,
    LIKE patterns beyond SQLite's length limit, and text beyond one
    character per [ascii]. *)

From stdpp Require Import gmap strings.
From Stdlib Require Import ZArith List String Ascii Bool Lia Sorted Permutation.
From Stdlib.Strings Require Import Byte.
Import ListNotations.

Local Open Scope Z_scope.

(** ** Python and pathlib helpers *)

(** Truth value of an [Optional[str]]: [None] and [""] are falsy. *)
Definition truthy (s : option string) : bool :=
  match s with
  | Some (String _ _) => true
  | _ => false
  end.

(** [sub in s] on strings. *)
Fixpoint contains (sub s : string) : bool :=
  String.prefix sub s ||
  match s with
  | EmptyString => false
  | String _ s' => contains sub s'
  end.

(** [s.split("/")]. *)
Fixpoint split_slash (s : string) : list string :=
  match s with
  | EmptyString => [EmptyString]
  | String c s' =>
      if Ascii.eqb c "/" then EmptyString :: split_slash s'
      else match split_slash s' with
           | h :: t => String c h :: t
           | [] => [String c EmptyString]
           end
  end.

Fixpoint join_slash (parts : list string) : string :=
  match parts with
  | [] => ""
  | [p] => p
  | p :: rest => p +:+ "/" +:+ join_slash rest
  end.

(** A [PurePosixPath]: whether it starts at the root, and its components
    (empty and ["."] components are dropped when a string is parsed;
    [".."] components are kept, as pathlib keeps them). *)
Record Path := mkPath { anchored : bool; parts : list string }.

Definition Path_of (s : string) : Path :=
  {| anchored := String.prefix "/" s;
     parts := List.filter (fun c => negb (String.eqb c "" || String.eqb c "."))
                          (split_slash s) |}.

(** [p / s]: an absolute right operand replaces the left one. *)
Definition joinpath (p : Path) (s : string) : Path :=
  let q := Path_of s in
  if anchored q then q
  else {| anchored := anchored p; parts := parts p ++ parts q |}.

Definition str (p : Path) : string :=
  match anchored p, parts p with
  | false, [] => "."
  | false, ps => join_slash ps
  | true, ps => "/" +:+ join_slash ps
  end.

(** [s[i:]] for the last [i] with [s[i] = "."]. *)
Fixpoint rfind_dot (s : string) : option string :=
  match s with
  | EmptyString => None
  | String c s' =>
      match rfind_dot s' with
      | Some t => Some t
      | None => if Ascii.eqb c "." then Some s else None
      end
  end.

(** [Path.suffix]: the last dot of the final component counts when it is
    neither its first nor its last character. *)
Definition suffix (p : Path) : string :=
  match List.last (parts p) EmptyString with
  | EmptyString => ""
  | String _ rest =>
      match rfind_dot rest with
      | Some t => if (String.length t =? 1)%nat then "" else t
      | None => ""
      end
  end.

Definition UPLOAD_DIR : Path := Path_of "uploads".

(** ** SQLite helpers *)

(** One row of the table [notes]. *)
Record Note := mkNote {
  id : Z;
  note_type : string;
  content : option string;
  file_name : option string;
  file_path : option string;
  mime_type : option string;
  tags : option string;
  created_at : string;
  updated_at : string
}.

(** ASCII lower case, the only folding LIKE does. *)
Definition lower (c : ascii) : ascii :=
  let n := nat_of_ascii c in
  if ((65 <=? n) && (n <=? 90))%nat then ascii_of_nat (n + 32) else c.

(** The pattern comparison of LIKE with no ESCAPE clause: [%] matches
    any run of characters, [_] matches one character, anything else
    matches itself up to ASCII case. *)
Fixpoint like_chars (p s : string) {struct p} : bool :=
  match p with
  | EmptyString => match s with EmptyString => true | _ => false end
  | String c p' =>
      if Ascii.eqb c "%" then
        (fix star (s : string) : bool :=
           like_chars p' s ||
           match s with
           | EmptyString => false
           | String _ s' => star s'
           end) s
      else
        match s with
        | EmptyString => false
        | String d s' =>
            (Ascii.eqb c "_" || Ascii.eqb (lower c) (lower d))
            && like_chars p' s'
        end
  end.

(** The text has a NUL character. *)
Fixpoint has_nul (s : string) : bool :=
  match s with
  | EmptyString => false
  | String c s' => Ascii.eqb c Ascii.zero || has_nul s'
  end.

(** What C code reads of a text value: the characters before the first
    NUL. *)
Fixpoint c_str (s : string) : string :=
  match s with
  | EmptyString => EmptyString
  | String c s' =>
      if Ascii.eqb c Ascii.zero then EmptyString else String c (c_str s')
  end.

(** [s LIKE p]: SQLite hands both operands to the comparison as
    NUL-terminated strings, so a NUL character ends the pattern and the
    text alike. *)
Definition like (p s : string) : bool := like_chars (c_str p) (c_str s).

(** A NULL column makes [col LIKE p] NULL, which a WHERE clause treats
    as not true. *)
Definition column_like (p : string) (col : option string) : bool :=
  match col with
  | Some s => like p s
  | None => false
  end.

(** [ORDER BY created_at DESC]: TEXT values compare byte by byte.  Rows
    with equal keys stay in scan (rowid) order; SQL leaves that open and
    no statement below depends on it. *)
Fixpoint insert_desc (n : Note) (sorted : list Note) : list Note :=
  match sorted with
  | [] => [n]
  | m :: rest =>
      if String.leb (created_at m) (created_at n) then n :: sorted
      else m :: insert_desc n rest
  end.

Definition order_by_created_at_desc (rows : list Note) : list Note :=
  fold_right insert_desc [] rows.

(** [LIMIT limit OFFSET offset]: a negative OFFSET counts as zero and a
    negative LIMIT puts no upper bound on the number of rows. *)
Definition limit_offset {A : Type} (limit offset : Z) (rows : list A) : list A :=
  let rest := skipn (Z.to_nat offset) rows in
  if limit <? 0 then rest else firstn (Z.to_nat limit) rest.

Definition max_rowid (rows : list Note) : Z :=
  fold_right (fun n m => Z.max (id n) m) 0 rows.

(** ** The world: table, disk, console *)

(** What a lookup of a path finds.  [Denied] stands for a path the
    process is not allowed to look up, a directory above it being closed
    to it. *)
Inductive Node :=
| Dir
| File (data : list byte)
| Denied.

Inductive FsCall :=
| Stat (p : string)
| OpenWrite (p : string)
| OpenRead (p : string)
| Unlink (p : string).

Definition fs_path (c : FsCall) : string :=
  match c with
  | Stat p | OpenWrite p | OpenRead p | Unlink p => p
  end.

Record World := mkWorld {
  notes : list Note;            (* rows of [notes], in rowid order *)
  sqlite_sequence : Z;          (* largest rowid ever given out *)
  disk : gmap string Node;      (* files and directories by path *)
  undeletable : gset string;    (* paths whose unlink is refused *)
  stdout : list string;         (* lines printed so far *)
  fs_calls : list FsCall;       (* file-system calls made so far *)
  clock_reads : nat;            (* how often the clock was read *)
  uuid_draws : nat              (* how many uuids were drawn *)
}.

(** INSERT with an AUTOINCREMENT key gives the new row a rowid one more
    than the largest rowid the table has ever held. *)
Definition next_rowid (w : World) : Z :=
  Z.max (sqlite_sequence w) (max_rowid (notes w)) + 1.

(** What the host provides: the n-th reading of
    [datetime.utcnow().isoformat()], the n-th [str(uuid.uuid4())] and
    the first component of [mimetypes.guess_type]. *)
Class Host := {
  utcnow : nat -> string;
  uuid4 : nat -> string;
  guess_type : string -> option string
}.

Inductive Exc :=
| HTTPException (status_code : Z) (detail : string)
| OSError (msg : string)
| RuntimeError (msg : string).

Definition exc_str (e : Exc) : string :=
  match e with
  | HTTPException _ d => d
  | OSError m => m
  | RuntimeError m => m
  end.

Inductive Outcome (A : Type) :=
| Return (a : A)
| Raise (e : Exc).
Arguments Return {A} a.
Arguments Raise {A} e.

(** A computation changes the world and returns or raises; what it did
    to the world before raising stays done. *)
Definition M (A : Type) : Type := World -> World * Outcome A.

Definition ret {A} (a : A) : M A := fun w => (w, Return a).

Definition raise {A} (e : Exc) : M A := fun w => (w, Raise e).

Definition bind {A B} (c : M A) (k : A -> M B) : M B :=
  fun w =>
    match c w with
    | (w', Return a) => k a w'
    | (w', Raise e) => (w', Raise e)
    end.

(** [try: c  except Exception as e: h e]. *)
Definition try_except {A} (c : M A) (h : Exc -> M A) : M A :=
  fun w =>
    match c w with
    | (w', Return a) => (w', Return a)
    | (w', Raise e) => h e w'
    end.

Notation "x <- c ;; k" := (bind c (fun x => k))
  (at level 100, c at next level, right associativity).
Notation "c ;;; k" := (bind c (fun _ => k))
  (at level 100, right associativity).

Definition log_call (c : FsCall) (w : World) : World :=
  mkWorld (notes w) (sqlite_sequence w) (disk w) (undeletable w) (stdout w)
          (fs_calls w ++ [c]) (clock_reads w) (uuid_draws w).

Definition set_disk (d : gmap string Node) (w : World) : World :=
  mkWorld (notes w) (sqlite_sequence w) d (undeletable w) (stdout w)
          (fs_calls w) (clock_reads w) (uuid_draws w).

(** [print(line)]. *)
Definition print (line : string) : M unit :=
  fun w =>
    (mkWorld (notes w) (sqlite_sequence w) (disk w) (undeletable w)
             (stdout w ++ [line]) (fs_calls w) (clock_reads w) (uuid_draws w),
     Return tt).

(** Bytes of [os.fsencode(s)]: UTF-8 takes two bytes for a character
    above 127. *)
Fixpoint fs_length (s : string) : nat :=
  match s with
  | EmptyString => 0
  | String c s' => ((if nat_of_ascii c <? 128 then 1 else 2) + fs_length s')%nat
  end.

(** The limits of the file system (Linux). *)
Definition NAME_MAX : nat := 255.
Definition PATH_MAX : nat := 4096.

Definition ENAMETOOLONG (p : string) : Exc :=
  OSError ("[Errno 36] File name too long: '" +:+ p +:+ "'").

Definition EACCES (p : string) : Exc :=
  OSError ("[Errno 13] Permission denied: '" +:+ p +:+ "'").

(** Looking up a path that is not on the disk, component by component
    below [above]: the walk ends without an error where a component is
    missing or is not a directory, and with an error at a component
    longer than NAME_MAX bytes or below a path that is [Denied]. *)
Fixpoint walk (d : gmap string Node) (p : string) (above : option string)
    (comps : list string) : option Exc :=
  match comps with
  | [] => None
  | part :: rest =>
      if (NAME_MAX <? fs_length part)%nat then Some (ENAMETOOLONG p)
      else
        let here := match above with
                    | None => part
                    | Some a => a +:+ "/" +:+ part
                    end in
        match rest with
        | [] => None
        | _ :: _ =>
            if String.eqb part "" then walk d p (Some here) rest
            else match d !! here with
                 | Some Dir => walk d p (Some here) rest
                 | Some Denied => Some (EACCES p)
                 | Some (File _) | None => None
                 end
        end
  end.

(** The [OSError] that [os.stat(p)] raises and [Path.exists] lets
    through (it turns "no such file", "not a directory" and an embedded
    NUL into [False]). *)
Definition stat_error (p : string) (w : World) : option Exc :=
  match disk w !! p with
  | Some Denied => Some (EACCES p)
  | Some Dir | Some (File _) => None
  | None =>
      if has_nul p then None
      else if (PATH_MAX <=? fs_length p)%nat then Some (ENAMETOOLONG p)
      else walk (disk w) p None (split_slash p)
  end.

(** [path.exists()]. *)
Definition path_exists (p : string) : M bool :=
  fun w =>
    match stat_error p w with
    | Some e => (log_call (Stat p) w, Raise e)
    | None =>
        (log_call (Stat p) w,
         Return (match disk w !! p with Some _ => true | None => false end))
    end.

(** [with open(p, "wb") as f: f.write(data)]: the file is created or
    replaced (the uploads directory is made at import time, line 22). *)
Definition write_bytes (p : string) (data : list byte) : M unit :=
  fun w => (set_disk (<[p := File data]> (disk w)) (log_call (OpenWrite p) w),
            Return tt).

(** [path.unlink()]. *)
Definition unlink (p : string) : M unit :=
  fun w =>
    let w1 := log_call (Unlink p) w in
    match disk w !! p with
    | None =>
        (w1, Raise (OSError ("[Errno 2] No such file or directory: '" +:+ p +:+ "'")))
    | Some Dir =>
        (w1, Raise (OSError ("[Errno 21] Is a directory: '" +:+ p +:+ "'")))
    | Some Denied => (w1, Raise (EACCES p))
    | Some (File _) =>
        if decide (p ∈ undeletable w)
        then (w1, Raise (EACCES p))
        else (set_disk (delete p (disk w)) w1, Return tt)
    end.

(** What sending a [FileResponse] does: the path has to be a regular
    file, whose bytes are read. *)
Definition read_bytes (p : string) : M (list byte) :=
  fun w =>
    let w1 := log_call (OpenRead p) w in
    match disk w !! p with
    | Some (File data) => (w1, Return data)
    | Some Dir => (w1, Raise (RuntimeError "File at path is not a file."))
    | Some Denied => (w1, Raise (EACCES p))
    | None => (w1, Raise (RuntimeError "File at path does not exist."))
    end.

Definition uuid4_str `{Host} : M string :=
  fun w =>
    (mkWorld (notes w) (sqlite_sequence w) (disk w) (undeletable w) (stdout w)
             (fs_calls w) (clock_reads w) (S (uuid_draws w)),
     Return (uuid4 (uuid_draws w))).

Definition utcnow_isoformat `{Host} : M string :=
  fun w =>
    (mkWorld (notes w) (sqlite_sequence w) (disk w) (undeletable w) (stdout w)
             (fs_calls w) (S (clock_reads w)) (uuid_draws w),
     Return (utcnow (clock_reads w))).

(** ** database.py *)

Module database.
Section Database.
Context `{Host}.

(** [init_db]: CREATE TABLE IF NOT EXISTS.  The table of the model is
    there from the start (empty in [fresh_world]) with the INTEGER
    PRIMARY KEY AUTOINCREMENT column [id] of line 18, so the statement
    finds it and leaves it alone. *)
Definition init_db : M unit := ret tt.

(** INSERT INTO notes (...) VALUES (...), returning [cursor.lastrowid]. *)
Definition insert_row (note_type : string)
    (content file_name file_path mime_type tags : option string)
    (now : string) : M Z :=
  fun w =>
    let lastrowid := next_rowid w in
    let row := mkNote lastrowid note_type content file_name file_path
                      mime_type tags now now in
    (mkWorld (notes w ++ [row]) lastrowid (disk w) (undeletable w) (stdout w)
             (fs_calls w) (clock_reads w) (uuid_draws w),
     Return lastrowid).

Definition create_note (note_type : string)
    (content file_name file_path mime_type tags : option string) : M Z :=
  now <- utcnow_isoformat ;;
  insert_row note_type content file_name file_path mime_type tags now.

(** SELECT * FROM notes ORDER BY created_at DESC LIMIT ? OFFSET ?. *)
Definition get_all_notes (limit offset : Z) : M (list Note) :=
  fun w => (w, Return (limit_offset limit offset
                         (order_by_created_at_desc (notes w)))).

(** SELECT * FROM notes WHERE id = ?, then [fetchone]. *)
Definition get_note_by_id (note_id : Z) : M (option Note) :=
  fun w => (w, Return (List.find (fun n => id n =? note_id) (notes w))).

(** DELETE FROM notes WHERE id = ?, returning [cursor.rowcount > 0]. *)
Definition delete_note (note_id : Z) : M bool :=
  fun w =>
    let kept := List.filter (fun n => negb (id n =? note_id)) (notes w) in
    let rowcount := Z.of_nat (List.length (notes w)) - Z.of_nat (List.length kept) in
    (mkWorld kept (sqlite_sequence w) (disk w) (undeletable w) (stdout w)
             (fs_calls w) (clock_reads w) (uuid_draws w),
     Return (0 <? rowcount)).

(** WHERE content LIKE ? OR tags LIKE ? OR file_name LIKE ?. *)
Definition search_where (search_pattern : string) (n : Note) : bool :=
  column_like search_pattern (content n) ||
  column_like search_pattern (tags n) ||
  column_like search_pattern (file_name n).

(** SELECT * FROM notes WHERE ... ORDER BY created_at DESC LIMIT ?: no
    OFFSET clause, and the query goes into the pattern as it is. *)
Definition search_notes (query : string) (limit : Z) : M (list Note) :=
  let search_pattern := "%" +:+ query +:+ "%" in
  fun w => (w, Return (limit_offset limit 0
                         (order_by_created_at_desc
                            (List.filter (search_where search_pattern) (notes w))))).

(** SELECT COUNT( * ) FROM notes. *)
Definition get_note_count : M Z :=
  fun w => (w, Return (Z.of_nat (List.length (notes w)))).

End Database.
End database.

(** ** app.py *)

Module app.

(** An uploaded part of the multipart form. *)
Record UploadFile := mkUploadFile {
  filename : option string;
  content_type : option string;
  body : list byte
}.

(** One entry of [created_notes]. *)
Record CreatedNote := mkCreatedNote {
  created_id : Z;
  created_note_type : string;
  created_file_name : option string;
  created_message : string
}.

Record CreateResponse := mkCreateResponse {
  create_success : bool;
  create_notes : list CreatedNote;
  create_count : Z
}.

Record ListResponse := mkListResponse {
  list_success : bool;
  list_notes : list Note;
  list_total : Z;
  list_limit : Z;
  list_offset : Z
}.

Record NoteResponse := mkNoteResponse {
  note_success : bool;
  note_note : Note
}.

Record DeleteResponse := mkDeleteResponse {
  delete_success : bool;
  delete_message : string
}.

Record FileResponse := mkFileResponse {
  response_path : string;
  response_media_type : string;
  response_filename : string;
  response_body : list byte
}.

Record HealthResponse := mkHealthResponse {
  health_status : string;
  health_timestamp : string;
  health_note_count : Z
}.

(** 50 * 1024 * 1024, the size limit of one upload in bytes. *)
Definition MAX_UPLOAD : Z := 50 * 1024 * 1024.

Section App.
Context `{Host}.

(** The body of the loop [for file in files] (lines 89-125): [None] is
    the [continue] of a part without a file name. *)
Definition upload_file (content tags : option string) (file : UploadFile)
    : M (option CreatedNote) :=
  match filename file with
  | Some (String _ _ as name) =>
      let file_content := body file in
      if MAX_UPLOAD <? Z.of_nat (List.length file_content) then
        raise (HTTPException 413
                 ("File " +:+ name +:+ " is too large (max 50MB)"))
      else
        uuid <- uuid4_str ;;
        let file_extension := suffix (Path_of name) in
        let unique_filename := uuid +:+ file_extension in
        let file_path := joinpath UPLOAD_DIR unique_filename in
        write_bytes (str file_path) file_content ;;;
        let mime_type :=
          if truthy (content_type file) then content_type file
          else if truthy (guess_type name) then guess_type name
          else Some "application/octet-stream" in
        note_id <- database.create_note "file"
                     (if truthy content then content else None)
                     (Some name)
                     (Some ("uploads/" +:+ unique_filename))
                     mime_type
                     tags ;;
        ret (Some (mkCreatedNote note_id "file" (Some name)
                                 "File uploaded successfully"))
  | _ => ret None
  end.

(** The loop itself, with [created_notes] as accumulator. *)
Fixpoint upload_files (content tags : option string)
    (files : list UploadFile) (created_notes : list CreatedNote)
    : M (list CreatedNote) :=
  match files with
  | [] => ret created_notes
  | file :: rest =>
      r <- upload_file content tags file ;;
      upload_files content tags rest
        (match r with
         | Some c => created_notes ++ [c]
         | None => created_notes
         end)
  end.

(** The test of line 88: some part was sent and the first one has a name. *)
Definition has_upload (files : list UploadFile) : bool :=
  match files with
  | [] => false
  | first :: _ => truthy (filename first)
  end.

Definition create_note (content link tags : option string)
    (files : list UploadFile) : M CreateResponse :=
  created_notes <-
    (if has_upload files then upload_files content tags files []
     else if truthy link then
       note_id <- database.create_note "link" link None None None tags ;;
       ret [mkCreatedNote note_id "link" None "Link saved successfully"]
     else if truthy content then
       note_id <- database.create_note "text" content None None None tags ;;
       ret [mkCreatedNote note_id "text" None "Note saved successfully"]
     else
       raise (HTTPException 400 "No content, link, or files provided")) ;;
  ret (mkCreateResponse true created_notes
                        (Z.of_nat (List.length created_notes))).

Definition get_notes (limit offset : Z) (search : option string)
    : M ListResponse :=
  notes <-
    (match search with
     | Some (String _ _ as query) => database.search_notes query limit
     | _ => database.get_all_notes limit offset
     end) ;;
  total <- database.get_note_count ;;
  ret (mkListResponse true notes total limit offset).

Definition get_note (note_id : Z) : M NoteResponse :=
  note <- database.get_note_by_id note_id ;;
  match note with
  | None => raise (HTTPException 404 "Note not found")
  | Some n => ret (mkNoteResponse true n)
  end.

(** The line printed when the blob cannot be removed (line 219). *)
Definition unlink_warning (file_path : string) (e : Exc) : string :=
  "⚠️ Could not delete file " +:+ file_path +:+ ": " +:+ exc_str e.

(** Lines 213-219: the blob of a file note is removed, and whatever
    [unlink] raises is printed and dropped.  The existence test of
    line 215 stands before the [try]: what it raises is not caught. *)
Definition remove_blob (note : Note) : M unit :=
  match file_path note with
  | Some (String _ _ as stored) =>
      let file_path := str (Path_of stored) in
      present <- path_exists file_path ;;
      if present then
        try_except (unlink file_path)
          (fun e => print (unlink_warning file_path e))
      else ret tt
  | _ => ret tt
  end.

Definition delete_note (note_id : Z) : M DeleteResponse :=
  note <- database.get_note_by_id note_id ;;
  match note with
  | None => raise (HTTPException 404 "Note not found")
  | Some n =>
      remove_blob n ;;;
      deleted <- database.delete_note note_id ;;
      if deleted then ret (mkDeleteResponse true "Note deleted successfully")
      else raise (HTTPException 404 "Note not found")
  end.

Definition serve_file (filename : string) : M FileResponse :=
  if contains ".." filename || contains "/" filename || contains "\" filename
  then raise (HTTPException 400 "Invalid filename")
  else
    let file_path := str (joinpath UPLOAD_DIR filename) in
    present <- path_exists file_path ;;
    if negb present then raise (HTTPException 404 "File not found")
    else
      let mime_type :=
        match guess_type file_path with
        | Some t => t
        | None => "application/octet-stream"
        end in
      data <- read_bytes file_path ;;
      ret (mkFileResponse file_path mime_type filename data).

Definition health_check : M HealthResponse :=
  note_count <- database.get_note_count ;;
  timestamp <- utcnow_isoformat ;;
  ret (mkHealthResponse "healthy" timestamp note_count).

End App.
End app.

(** ** Vocabulary of the statements *)

(** [a] may stand before [b] in a newest-first listing. *)
Definition newer_first (a b : Note) : Prop :=
  String.leb (created_at b) (created_at a) = true.

(** [query in column], false for a NULL column. *)
Definition column_contains (query : string) (col : option string) : bool :=
  match col with
  | Some s => contains query s
  | None => false
  end.

(** The note has the query as a substring of content, tags or file_name. *)
Definition has_substring (query : string) (n : Note) : bool :=
  column_contains query (content n) ||
  column_contains query (tags n) ||
  column_contains query (file_name n).

(** ASCII letters folded to lower case. *)
Fixpoint fold_case (s : string) : string :=
  match s with
  | EmptyString => EmptyString
  | String c s' => String (lower c) (fold_case s')
  end.

(** The query has none of the LIKE wildcards [%] and [_]. *)
Fixpoint wildcard_free (query : string) : bool :=
  match query with
  | EmptyString => true
  | String c q => negb (Ascii.eqb c "%" || Ascii.eqb c "_") && wildcard_free q
  end.

(** The same test with ASCII letter case ignored. *)
Definition has_substring_nocase (query : string) (n : Note) : bool :=
  column_contains (fold_case query) (option_map fold_case (content n)) ||
  column_contains (fold_case query) (option_map fold_case (tags n)) ||
  column_contains (fold_case query) (option_map fold_case (file_name n)).

(** The row as LIKE reads it: content, tags and file_name cut at their
    first NUL character. *)
Definition as_c_strings (n : Note) : Note :=
  mkNote (id n) (note_type n) (option_map c_str (content n))
         (option_map c_str (file_name n)) (file_path n) (mime_type n)
         (option_map c_str (tags n)) (created_at n) (updated_at n).

(** The error, if any, that looking for the blob of a note raises. *)
Definition blob_error (n : Note) (w : World) : option Exc :=
  match file_path n with
  | Some (String _ _ as stored) => stat_error (str (Path_of stored)) w
  | _ => None
  end.

(** The ids SQLite can bind: 64-bit signed integers. *)
Definition sqlite_integer (i : Z) : Prop := - 2 ^ 63 <= i < 2 ^ 63.

(** The parts of a request that carry a file name. *)
Definition named (files : list app.UploadFile) : list app.UploadFile :=
  List.filter (fun f => truthy (app.filename f)) files.

Definition size (f : app.UploadFile) : Z := Z.of_nat (List.length (app.body f)).

(** A part is let through by the size check of the upload loop. *)
Definition within_limit (f : app.UploadFile) : Prop :=
  truthy (app.filename f) = true -> size f <= app.MAX_UPLOAD.

(** A path string that stays inside the uploads directory: relative,
    first component [uploads], no [..] component. *)
Definition inside_uploads (p : string) : bool :=
  let q := Path_of p in
  negb (anchored q) &&
  match parts q with
  | d :: rest =>
      String.eqb d "uploads" &&
      forallb (fun c => negb (String.eqb c "..")) rest
  | [] => false
  end.

(** The table never holds a rowid above the AUTOINCREMENT counter; true
    of the empty table and kept by every INSERT and DELETE. *)
Definition counter_ok (w : World) : Prop :=
  max_rowid (notes w) <= sqlite_sequence w.

(** Statements sent to the store, and the rowids a sequence of them
    hands out, in order. *)
Inductive Statement :=
| Insert (note_type : string)
         (content file_name file_path mime_type tags : option string)
| DeleteRow (note_id : Z).

Fixpoint assigned `{Host} (stmts : list Statement) (w : World) : list Z :=
  match stmts with
  | [] => []
  | Insert nt c fn fp mt tg :: rest =>
      match database.create_note nt c fn fp mt tg w with
      | (w', Return i) => i :: assigned rest w'
      | (w', Raise _) => assigned rest w'
      end
  | DeleteRow i :: rest => assigned rest (fst (database.delete_note i w))
  end.

(** The requests of the API, what each does to the world, and a
    sequence of them served one after the other. *)
Inductive Request :=
| PostNote (content link tags : option string) (files : list app.UploadFile)
| GetNotes (limit offset : Z) (search : option string)
| GetNote (note_id : Z)
| DeleteNote (note_id : Z)
| GetFile (filename : string)
| GetHealth.

Definition handle `{Host} (r : Request) (w : World) : World :=
  match r with
  | PostNote content link tags files =>
      fst (app.create_note content link tags files w)
  | GetNotes limit offset search => fst (app.get_notes limit offset search w)
  | GetNote note_id => fst (app.get_note note_id w)
  | DeleteNote note_id => fst (app.delete_note note_id w)
  | GetFile filename => fst (app.serve_file filename w)
  | GetHealth => fst (app.health_check w)
  end.

Definition serve `{Host} (requests : list Request) (w : World) : World :=
  fold_left (fun w r => handle r w) requests w.

(** The shape of a row as the handlers write it: a text or link note
    has a non-empty content and no file columns; a file note has a file
    name, a path under uploads/ and a MIME type, and a caption that is
    NULL or non-empty.  Both timestamps are the time of creation. *)
Definition note_ok (n : Note) : Prop :=
  updated_at n = created_at n /\
  (((note_type n = "text" \/ note_type n = "link") /\
    truthy (content n) = true /\
    file_name n = None /\ file_path n = None /\ mime_type n = None) \/
   (note_type n = "file" /\
    truthy (file_name n) = true /\
    truthy (mime_type n) = true /\
    (exists unique_filename,
        file_path n = Some ("uploads/" +:+ unique_filename)) /\
    (content n = None \/ truthy (content n) = true))).

(** What one statement does to the table: an INSERT appends a row of
    that shape under the next rowid, a DELETE filters by id. *)
Inductive table_step (w w' : World) : Prop :=
| step_insert (row : Note) :
    note_ok row -> id row = next_rowid w ->
    notes w' = notes w ++ [row] -> sqlite_sequence w' = next_rowid w ->
    table_step w w'
| step_delete (note_id : Z) :
    notes w' = List.filter (fun n => negb (id n =? note_id)) (notes w) ->
    sqlite_sequence w' = sqlite_sequence w ->
    table_step w w'.

(** Any number of statements; in between, only the rest of the world
    changes. *)
Inductive table_steps (w : World) : World -> Prop :=
| steps_same (w' : World) :
    notes w' = notes w -> sqlite_sequence w' = sqlite_sequence w ->
    table_steps w w'
| steps_more (w1 w' : World) :
    table_steps w w1 -> table_step w1 w' -> table_steps w w'.

(** A created-note summary describes a row. *)
Definition describes (n : Note) (c : app.CreatedNote) : Prop :=
  app.created_id c = id n /\
  app.created_note_type c = note_type n /\
  app.created_file_name c = file_name n.

(** The rows of the table carry strictly increasing ids, so no two
    rows share an id. *)
Definition ids_increasing (w : World) : Prop :=
  StronglySorted Z.lt (List.map id (notes w)).

Definition rows_ok (w : World) : Prop := Forall note_ok (notes w).

(** What every [str(uuid.uuid4())] has: it is not empty and holds
    neither a slash nor a dot. *)
Definition uuid_like (u : string) : Prop :=
  u <> "" /\ contains "/" u = false /\ contains "." u = false.

Fixpoint count_dots (s : string) : nat :=
  match s with
  | EmptyString => 0
  | String c s' => (if Ascii.eqb c "." then 1 else 0) + count_dots s'
  end.

(** From [w] to [w'] the file system was only called on paths inside
    the uploads directory, and nothing outside it changed on disk. *)
Definition confined (w w' : World) : Prop :=
  (exists calls,
      fs_calls w' = fs_calls w ++ calls /\
      Forall (fun c => inside_uploads (fs_path c) = true) calls) /\
  (forall p, inside_uploads p = false -> disk w' !! p = disk w !! p).

(** generate_icons.py: the drawing as the list of calls made on the
    [ImageDraw] object, and the file it is saved to. *)
Module generate_icons.

Record Rectangle := mkRectangle {
  x0 : Z; y0 : Z; x1 : Z; y1 : Z;
  fill : string;
  outline : option string;
  width : Z
}.

Record Icon := mkIcon {
  image_size : Z * Z;
  background : string;
  drawn : list Rectangle;
  saved_to : string
}.

Definition create_icon (size : Z) (output_path : string) : Icon :=
  let margin := size / 8 in
  let note_color := "#ffffff" in
  let notepad :=
    mkRectangle margin margin (size - margin) (size - margin)
                note_color (Some "#4f46e5") (size / 40) in
  let line_margin := margin * 2 in
  let line_spacing := size / 8 in
  let line_width := size / 30 in
  let lines :=
    List.map (fun i =>
                let y := line_margin + margin + (i * line_spacing) in
                mkRectangle line_margin y (size - line_margin) (y + line_width)
                            "#6366f1" None 1)
             [0; 1; 2] in
  mkIcon (size, size) "#6366f1" (notepad :: lines) output_path.

End generate_icons.

(** ** Example data *)

Definition demo_host : Host :=
  {| utcnow := fun n => "2024-01-01T00:00:0" +:+ String (ascii_of_nat (48 + n)) "";
     uuid4 := fun n => "0b5e-" +:+ String (ascii_of_nat (97 + n)) "";
     guess_type := fun _ => None |}.

(** A host whose uuids are all different and all plain. *)
Fixpoint tally (n : nat) : string :=
  match n with
  | O => "0"
  | S k => String "a" (tally k)
  end.

Definition tally_host : Host :=
  {| utcnow := fun n => "2024-01-01T00:00:0" +:+ String (ascii_of_nat (48 + n)) "";
     uuid4 := tally;
     guess_type := fun _ => None |}.

(** The state after start-up: empty table, empty uploads directory. *)
Definition fresh_world : World :=
  mkWorld [] 0 {[ "uploads" := Dir ]} ∅ [] [] 0 0.

Definition a_txt : app.UploadFile :=
  app.mkUploadFile (Some "a.txt") (Some "text/plain") [x68; x69].

(** 50 MiB and one byte. *)
Definition oversized_body : list byte :=
  repeat x00 (Z.to_nat (app.MAX_UPLOAD + 1)).

Definition big_bin : app.UploadFile :=
  app.mkUploadFile (Some "big.bin") None oversized_body.

Definition nameless_big : app.UploadFile :=
  app.mkUploadFile (Some "") None oversized_body.

Definition text_row (i : Z) (text now : string) : Note :=
  mkNote i "text" (Some text) None None None None now now.

Definition one_note : World :=
  mkWorld [text_row 1 "hello" "2024-01-01T00:00:00"]
          1 {[ "uploads" := Dir ]} ∅ [] [] 1 0.

(** A file note whose blob is on disk and cannot be unlinked. *)
Definition pinned_row : Note :=
  mkNote 1 "file" None (Some "x.bin") (Some "uploads/0b5e-a.bin")
         (Some "application/octet-stream") None
         "2024-01-01T00:00:00" "2024-01-01T00:00:00".

Definition pinned_world : World :=
  mkWorld [pinned_row] 1
          (<[ "uploads/0b5e-a.bin" := File [x68; x69] ]> {[ "uploads" := Dir ]})
          {[ "uploads/0b5e-a.bin" ]} [] [] 1 1.

(** The same note while the uploads directory is closed to the
    server: the lookup of the blob path is refused. *)
Definition denied_world : World :=
  mkWorld [pinned_row] 1
          (<[ "uploads/0b5e-a.bin" := Denied ]> {[ "uploads" := Dir ]})
          ∅ [] [] 1 1.

(** The same note with a blob that can be unlinked. *)
Definition blob_world : World :=
  mkWorld [pinned_row] 1
          (<[ "uploads/0b5e-a.bin" := File [x68; x69] ]> {[ "uploads" := Dir ]})
          ∅ [] [] 1 1.

(** A session: a text note, two uploads, a delete, a link, and reads. *)
Definition demo_requests : list Request :=
  [PostNote (Some "hello") None None [];
   PostNote None None (Some "docs") [a_txt; a_txt];
   DeleteNote 2;
   PostNote None (Some "http://example.com") None [];
   GetNotes 10 0 None;
   GetFile "0b5e-a.txt";
   GetHealth].

Definition three_notes : World :=
  mkWorld [text_row 1 "first" "2024-01-01T00:00:00";
           text_row 2 "second" "2024-01-01T00:00:01";
           text_row 3 "third" "2024-01-01T00:00:02"]
          3 {[ "uploads" := Dir ]} ∅ [] [] 3 0.

(** ** Ordering and the created_at column *)

Section Ordering.

Lemma insert_desc_perm (n : Note) (l : list Note) :
  Permutation (insert_desc n l) (n :: l).
Proof.
  induction l as [|m l IH]; simpl.
  - reflexivity.
  - destruct (String.leb (created_at m) (created_at n)).
    + reflexivity.
    + rewrite IH. apply perm_swap.
Qed.

Lemma order_by_perm (l : list Note) :
  Permutation (order_by_created_at_desc l) l.
Proof.
  induction l as [|n l IH]; simpl.
  - reflexivity.
  - rewrite insert_desc_perm. now constructor.
Qed.

Lemma insert_desc_hd (m n : Note) (l : list Note) :
  newer_first m n -> HdRel newer_first m l ->
  HdRel newer_first m (insert_desc n l).
Proof.
  intros Hmn Hl. destruct l as [|k l]; simpl.
  - now constructor.
  - destruct (String.leb (created_at k) (created_at n)); constructor; trivial.
    now inversion Hl.
Qed.

Lemma insert_desc_sorted (n : Note) (l : list Note) :
  Sorted newer_first l -> Sorted newer_first (insert_desc n l).
Proof.
  induction 1 as [|m l Hs IH Hhd]; simpl.
  - repeat constructor.
  - destruct (String.leb (created_at m) (created_at n)) eqn:E.
    + constructor; [now constructor|]. now constructor.
    + constructor; [assumption|].
      apply insert_desc_hd; [|assumption].
      unfold newer_first.
      destruct (String.leb_total (created_at m) (created_at n)) as [C|C];
        congruence.
Qed.

Lemma order_by_sorted (l : list Note) :
  Sorted newer_first (order_by_created_at_desc l).
Proof.
  induction l as [|n l IH]; simpl.
  - constructor.
  - now apply insert_desc_sorted.
Qed.

Lemma order_by_In (n : Note) (l : list Note) :
  In n (order_by_created_at_desc l) <-> In n l.
Proof.
  split; apply Permutation_in; [|symmetry]; apply order_by_perm.
Qed.

Lemma order_by_length (l : list Note) :
  List.length (order_by_created_at_desc l) = List.length l.
Proof. apply Permutation_length, order_by_perm. Qed.

End Ordering.

(** ** LIMIT and OFFSET *)

Section LimitOffset.
Context {A : Type}.

Lemma limit_offset_nth (limit offset : Z) (l : list A) (k : nat) :
  0 <= limit -> 0 <= offset ->
  nth_error (limit_offset limit offset l) k =
  if (Z.of_nat k <? limit) then nth_error l (Z.to_nat offset + k) else None.
Proof.
  intros Hl Ho. unfold limit_offset.
  destruct (Z.ltb_spec limit 0) as [?|_]; [lia|].
  destruct (Z.ltb_spec (Z.of_nat k) limit) as [Hk|Hk].
  - rewrite nth_error_firstn.
    destruct (Nat.ltb_spec k (Z.to_nat limit)) as [_|?]; [|lia].
    apply nth_error_skipn.
  - apply nth_error_None. rewrite length_firstn. lia.
Qed.

Lemma limit_offset_unbounded (limit offset : Z) (l : list A) :
  limit < 0 -> limit_offset limit offset l = skipn (Z.to_nat offset) l.
Proof.
  intros Hl. unfold limit_offset.
  now destruct (Z.ltb_spec limit 0) as [_|?]; [|lia].
Qed.

Lemma limit_offset_prefix (limit : Z) (l : list A) :
  exists rest, l = limit_offset limit 0 l ++ rest.
Proof.
  unfold limit_offset. change (skipn (Z.to_nat 0) l) with l.
  destruct (limit <? 0).
  - exists []. now rewrite app_nil_r.
  - exists (skipn (Z.to_nat limit) l). symmetry. apply firstn_skipn.
Qed.

Lemma limit_offset_all (limit : Z) (l : list A) :
  limit < 0 \/ Z.of_nat (List.length l) <= limit ->
  limit_offset limit 0 l = l.
Proof.
  intros Hl. unfold limit_offset. change (skipn (Z.to_nat 0) l) with l.
  destruct (Z.ltb_spec limit 0) as [_|Hpos]; [reflexivity|].
  apply firstn_all2. lia.
Qed.

Lemma limit_offset_length (limit : Z) (l : list A) :
  0 <= limit ->
  Z.of_nat (List.length (limit_offset limit 0 l)) =
  Z.min limit (Z.of_nat (List.length l)).
Proof.
  intros Hl. unfold limit_offset. change (skipn (Z.to_nat 0) l) with l.
  destruct (Z.ltb_spec limit 0) as [?|_]; [lia|].
  rewrite length_firstn. lia.
Qed.

Lemma limit_offset_In (limit offset : Z) (l : list A) (x : A) :
  In x (limit_offset limit offset l) -> In x l.
Proof.
  unfold limit_offset. intros Hx.
  rewrite <- (firstn_skipn (Z.to_nat offset) l). apply in_or_app. right.
  destruct (limit <? 0); [assumption|].
  rewrite <- (firstn_skipn (Z.to_nat limit) (skipn _ l)).
  apply in_or_app. now left.
Qed.

End LimitOffset.

(** ** Substrings and LIKE *)

Section Like.

Lemma prefix_split (sub s : string) :
  String.prefix sub s = true -> exists post, s = sub +:+ post.
Proof.
  revert s. induction sub as [|c sub IH]; intros s Hp.
  - now exists s.
  - destruct s as [|d s]; simpl in Hp; [discriminate|].
    destruct (ascii_dec c d) as [->|]; [|discriminate].
    destruct (IH _ Hp) as [post ->]. now exists post.
Qed.

Lemma contains_split (sub s : string) :
  contains sub s = true -> exists pre post, s = pre +:+ sub +:+ post.
Proof.
  induction s as [|d s IH]; cbn [contains]; intros Hc.
  - rewrite orb_false_r in Hc.
    destruct (prefix_split _ _ Hc) as [post ->]. now exists EmptyString, post.
  - apply orb_true_iff in Hc as [Hc|Hc].
    + destruct (prefix_split _ _ Hc) as [post ->]. now exists EmptyString, post.
    + destruct (IH Hc) as (pre & post & ->). now exists (String d pre), post.
Qed.

Lemma chars_like_percent (p s : string) :
  like_chars (String "%" p) s =
  like_chars p s || match s with
              | EmptyString => false
              | String _ s' => like_chars (String "%" p) s'
              end.
Proof. destruct s; reflexivity. Qed.

Lemma chars_like_other (c : ascii) (p s : string) :
  Ascii.eqb c "%" = false ->
  like_chars (String c p) s =
  match s with
  | EmptyString => false
  | String d s' =>
      (Ascii.eqb c "_" || Ascii.eqb (lower c) (lower d)) && like_chars p s'
  end.
Proof. intros E. simpl. now rewrite E. Qed.

Lemma chars_like_app (p1 p2 s1 s2 : string) :
  like_chars p1 s1 = true -> like_chars p2 s2 = true ->
  like_chars (p1 +:+ p2) (s1 +:+ s2) = true.
Proof.
  revert s1. induction p1 as [|c p1 IH]; intros s1 H1 H2.
  - destruct s1; [assumption|discriminate].
  - change (String c p1 +:+ p2) with (String c (p1 +:+ p2)).
    destruct (Ascii.eqb c "%") eqn:E.
    + apply Ascii.eqb_eq in E as ->.
      induction s1 as [|d s1 IHs].
      * rewrite chars_like_percent in H1 |- *. rewrite orb_false_r in H1.
        rewrite (IH _ H1 H2). reflexivity.
      * rewrite chars_like_percent in H1.
        change (String d s1 +:+ s2) with (String d (s1 +:+ s2)).
        rewrite chars_like_percent.
        apply orb_true_iff in H1 as [H1|H1].
        -- change (String d (s1 +:+ s2)) with (String d s1 +:+ s2).
           now rewrite (IH _ H1 H2).
        -- rewrite (IHs H1). apply orb_true_r.
    + rewrite chars_like_other in H1 |- * by assumption.
      destruct s1 as [|d s1]; [discriminate|].
      change (String d s1 +:+ s2) with (String d (s1 +:+ s2)).
      apply andb_true_iff in H1 as [Hc H1].
      now rewrite Hc, (IH _ H1 H2).
Qed.

Lemma chars_like_self (q : string) : like_chars q q = true.
Proof.
  induction q as [|c q IH].
  - reflexivity.
  - destruct (Ascii.eqb c "%") eqn:E.
    + apply Ascii.eqb_eq in E as ->.
      rewrite chars_like_percent, (chars_like_percent q q), IH. apply orb_true_r.
    + rewrite chars_like_other by assumption.
      now rewrite Ascii.eqb_refl, orb_true_r, IH.
Qed.

Lemma chars_like_any (s : string) : like_chars "%" s = true.
Proof.
  induction s as [|d s IH]; [reflexivity|].
  rewrite chars_like_percent. now rewrite IH, orb_true_r.
Qed.

(** A column that contains the query is matched by the pattern
    [%query%], whatever characters the query is made of. *)
Lemma chars_contains_like (query s : string) :
  contains query s = true -> like_chars ("%" +:+ query +:+ "%") s = true.
Proof.
  intros Hc. destruct (contains_split _ _ Hc) as (pre & post & ->).
  apply (chars_like_app "%" (query +:+ "%") pre (query +:+ post)).
  - apply chars_like_any.
  - apply chars_like_app; [apply chars_like_self|apply chars_like_any].
Qed.

Lemma chars_like_literal_prefix (query s : string) :
  wildcard_free query = true ->
  like_chars (query +:+ "%") s = String.prefix (fold_case query) (fold_case s).
Proof.
  revert s. induction query as [|c query IH]; intros s Hw.
  - change (EmptyString +:+ "%") with "%". rewrite chars_like_any. now destruct s.
  - cbn [wildcard_free] in Hw. apply andb_true_iff in Hw as [Hc Hw].
    apply negb_true_iff, orb_false_iff in Hc as [Hpc Hus].
    change (String c query +:+ "%") with (String c (query +:+ "%")).
    rewrite chars_like_other by assumption. rewrite Hus. cbn [orb].
    destruct s as [|d s]; [reflexivity|].
    cbn [fold_case String.prefix]. rewrite (IH s Hw).
    destruct (ascii_dec (lower c) (lower d)) as [E|E].
    + now rewrite E, Ascii.eqb_refl.
    + apply Ascii.eqb_neq in E. now rewrite E.
Qed.

(** For a query without wildcards, [LIKE %query%] is the substring test
    with ASCII letter case ignored. *)
Lemma chars_like_literal (query s : string) :
  wildcard_free query = true ->
  like_chars ("%" +:+ query +:+ "%") s = contains (fold_case query) (fold_case s).
Proof.
  intros Hw. change ("%" +:+ query +:+ "%") with (String "%" (query +:+ "%")).
  induction s as [|d s IH].
  - rewrite chars_like_percent, orb_false_r. cbn [contains fold_case].
    rewrite orb_false_r. now apply chars_like_literal_prefix.
  - rewrite chars_like_percent. cbn [contains fold_case]. rewrite IH.
    f_equal. now apply chars_like_literal_prefix.
Qed.

Lemma lower_nul (c : ascii) :
  Ascii.eqb (lower c) Ascii.zero = Ascii.eqb c Ascii.zero.
Proof. destruct c as [[] [] [] [] [] [] [] []]; reflexivity. Qed.

Lemma c_str_clean (s : string) : has_nul s = false -> c_str s = s.
Proof.
  induction s as [|c s IH]; cbn [has_nul c_str]; [reflexivity|].
  intros Hn. apply orb_false_iff in Hn as [-> Hn]. now rewrite IH.
Qed.

Lemma c_str_app (a b : string) :
  has_nul a = false -> c_str (a +:+ b) = a +:+ c_str b.
Proof.
  induction a as [|c a IH]; cbn [has_nul]; [reflexivity|].
  intros Hn. apply orb_false_iff in Hn as [Hc Hn].
  change (String c a +:+ b) with (String c (a +:+ b)).
  cbn [c_str]. rewrite Hc, (IH Hn). reflexivity.
Qed.

Lemma c_str_fold (s : string) : c_str (fold_case s) = fold_case (c_str s).
Proof.
  induction s as [|c s IH]; cbn [fold_case c_str]; [reflexivity|].
  rewrite lower_nul. destruct (Ascii.eqb c Ascii.zero); [reflexivity|].
  cbn [fold_case]. now rewrite IH.
Qed.

Lemma c_str_idem (s : string) : c_str (c_str s) = c_str s.
Proof.
  induction s as [|c s IH]; cbn [c_str]; [reflexivity|].
  destruct (Ascii.eqb c Ascii.zero) eqn:E; [reflexivity|].
  cbn [c_str]. now rewrite E, IH.
Qed.

Lemma c_str_cut (a b c : string) :
  has_nul a = false -> c_str ((a +:+ String Ascii.zero b) +:+ c) = a.
Proof.
  induction a as [|x a IH]; cbn [has_nul]; [reflexivity|].
  intros Hn. apply orb_false_iff in Hn as [Hx Hn].
  change ((String x a +:+ String Ascii.zero b) +:+ c)
    with (String x ((a +:+ String Ascii.zero b) +:+ c)).
  cbn [c_str]. now rewrite Hx, (IH Hn).
Qed.

Lemma like_c_str (p s : string) : like p (c_str s) = like p s.
Proof. unfold like. now rewrite c_str_idem. Qed.

(** The pattern built from a query without NUL reaches the comparison
    whole. *)
Lemma c_str_pattern (query : string) :
  has_nul query = false ->
  c_str ("%" +:+ query +:+ "%") = "%" +:+ query +:+ "%".
Proof.
  intros Hn. rewrite (c_str_app "%" _ eq_refl), (c_str_app query "%" Hn).
  reflexivity.
Qed.

(** A column that contains the query before its first NUL is matched by
    the pattern [%query%], whatever else the query is made of. *)
Lemma contains_like (query s : string) :
  has_nul query = false ->
  contains query (c_str s) = true -> like ("%" +:+ query +:+ "%") s = true.
Proof.
  intros Hn Hc. unfold like. rewrite (c_str_pattern _ Hn).
  now apply chars_contains_like.
Qed.

(** For a query without NUL and without wildcards, [LIKE %query%] is
    the substring test on the column up to its first NUL, with ASCII
    letter case ignored. *)
Lemma like_literal (query s : string) :
  has_nul query = false -> wildcard_free query = true ->
  like ("%" +:+ query +:+ "%") s =
  contains (fold_case query) (fold_case (c_str s)).
Proof.
  intros Hn Hw. unfold like. rewrite (c_str_pattern _ Hn).
  now apply chars_like_literal.
Qed.

End Like.

(** ** The store: rowids, lookup, deletion *)

Section Store.
Context `{Host}.

Lemma max_rowid_ge (n : Note) (l : list Note) : In n l -> id n <= max_rowid l.
Proof.
  induction l as [|m l IH]; simpl; [tauto|].
  intros [->|Hn]; [lia|]. specialize (IH Hn). lia.
Qed.

Lemma max_rowid_nonneg (l : list Note) : 0 <= max_rowid l.
Proof. induction l; simpl; lia. Qed.

Lemma max_rowid_app (l1 l2 : list Note) :
  max_rowid (l1 ++ l2) = Z.max (max_rowid l1) (max_rowid l2).
Proof.
  induction l1 as [|m l1 IH]; simpl.
  - pose proof (max_rowid_nonneg l2). lia.
  - lia.
Qed.

Lemma max_rowid_filter (f : Note -> bool) (l : list Note) :
  max_rowid (List.filter f l) <= max_rowid l.
Proof.
  induction l as [|m l IH]; simpl; [lia|].
  destruct (f m); simpl; lia.
Qed.

Lemma next_rowid_fresh (w : World) (n : Note) :
  In n (notes w) -> id n < next_rowid w.
Proof. intros Hn. apply max_rowid_ge in Hn. unfold next_rowid. lia. Qed.

(** What [database.create_note] does to the world, in one equation. *)
Lemma create_note_run (nt : string) (c fn fp mt tg : option string) (w : World) :
  database.create_note nt c fn fp mt tg w =
  (mkWorld (notes w ++ [mkNote (next_rowid w) nt c fn fp mt tg
                               (utcnow (clock_reads w)) (utcnow (clock_reads w))])
           (next_rowid w) (disk w) (undeletable w) (stdout w) (fs_calls w)
           (S (clock_reads w)) (uuid_draws w),
   Return (next_rowid w)).
Proof. reflexivity. Qed.

Lemma find_inserted (l : list Note) (row : Note) :
  (forall n, In n l -> id n <> id row) ->
  List.find (fun n => id n =? id row) (l ++ [row]) = Some row.
Proof.
  induction l as [|m l IH]; simpl; intros Hfresh.
  - now rewrite Z.eqb_refl.
  - destruct (Z.eqb_spec (id m) (id row)) as [E|_].
    + exfalso. apply (Hfresh m); auto.
    + apply IH. auto.
Qed.

Lemma find_deleted (note_id : Z) (l : list Note) :
  List.find (fun n => id n =? note_id)
            (List.filter (fun n => negb (id n =? note_id)) l) = None.
Proof.
  induction l as [|m l IH]; simpl; [reflexivity|].
  destruct (id m =? note_id) eqn:E; simpl; [assumption|].
  now rewrite E.
Qed.

Lemma filter_shrinks (f : Note -> bool) (l : list Note) (n : Note) :
  In n l -> f n = false ->
  (List.length (List.filter f l) < List.length l)%nat.
Proof.
  induction l as [|m l IH]; simpl; [tauto|].
  intros [->|Hn] Hf.
  - rewrite Hf. pose proof (filter_length_le f l). lia.
  - specialize (IH Hn Hf). destruct (f m); simpl; lia.
Qed.

Lemma limit_offset_shorter {A : Type} (limit offset : Z) (l : list A) :
  (List.length (limit_offset limit offset l) <= List.length l)%nat.
Proof.
  unfold limit_offset. destruct (limit <? 0).
  - rewrite length_skipn. lia.
  - rewrite length_firstn, length_skipn. lia.
Qed.

Lemma counter_ok_create (nt : string) (c fn fp mt tg : option string) (w : World) :
  counter_ok w -> counter_ok (fst (database.create_note nt c fn fp mt tg w)).
Proof.
  unfold counter_ok. rewrite create_note_run. simpl. intros Hw.
  rewrite max_rowid_app. simpl.
  pose proof (max_rowid_nonneg (notes w)). unfold next_rowid. lia.
Qed.

Lemma counter_ok_delete (note_id : Z) (w : World) :
  counter_ok w -> counter_ok (fst (database.delete_note note_id w)).
Proof.
  unfold counter_ok. simpl. intros Hw.
  pose proof (max_rowid_filter (fun n => negb (id n =? note_id)) (notes w)). lia.
Qed.

Lemma assigned_above (stmts : list Statement) (w : World) :
  counter_ok w ->
  StronglySorted Z.lt (assigned stmts w) /\
  Forall (fun i => sqlite_sequence w < i) (assigned stmts w).
Proof.
  revert w. induction stmts as [|s stmts IH]; intros w Hw.
  - split; constructor.
  - destruct s as [nt c fn fp mt tg|note_id]; cbn [assigned].
    + pose proof (counter_ok_create nt c fn fp mt tg w Hw) as Hw'.
      rewrite create_note_run in *. cbn [fst] in Hw'.
      destruct (IH _ Hw') as [Hs Ha]. cbn [sqlite_sequence] in Ha.
      split.
      * now constructor.
      * constructor.
        -- unfold next_rowid. lia.
        -- eapply Forall_impl; [|exact Ha].
           cbv beta. intros i Hi. unfold next_rowid in Hi. lia.
    + apply (IH _ (counter_ok_delete note_id w Hw)).
Qed.

End Store.

(** ** Claims about the store and the list operation *)

Section StoreClaims.
Context `{Host}.

(** C8. Creating a text note (no link, no files) and fetching the id
    that was returned gives back a note of type "text" with the content
    that was sent. *)
Theorem text_note_round_trip (text : string) (link tg : option string)
    (files : list app.UploadFile) (w : World) :
  text <> "" -> truthy link = false -> app.has_upload files = false ->
  exists w' i n,
    app.create_note (Some text) link tg files w =
      (w', Return (app.mkCreateResponse true
                     [app.mkCreatedNote i "text" None "Note saved successfully"]
                     1)) /\
    app.get_note i w' = (w', Return (app.mkNoteResponse true n)) /\
    id n = i /\ note_type n = "text" /\ content n = Some text /\ tags n = tg.
Proof.
  intros Htext Hlink Hfiles.
  assert (Ht : truthy (Some text) = true) by (destruct text; [congruence|reflexivity]).
  unfold app.create_note, bind.
  rewrite Hfiles, Hlink, Ht, create_note_run.
  eexists _, _, _. split; [reflexivity|].
  unfold app.get_note, database.get_note_by_id, bind. cbn [notes].
  rewrite (find_inserted (notes w)
             (mkNote (next_rowid w) "text" (Some text) None None None tg
                     (utcnow (clock_reads w)) (utcnow (clock_reads w)))).
  - repeat split; reflexivity.
  - intros m Hm. apply next_rowid_fresh in Hm. cbn [id]. lia.
Qed.

(** C9. Rowids grow: every id the store hands out is larger than every
    id handed out before it and than every id in the table, so the id of
    a deleted note is never given to a later note. *)
Theorem rowids_never_reused (stmts : list Statement) (w : World) :
  counter_ok w ->
  StronglySorted Z.lt (assigned stmts w) /\
  Forall (fun i => sqlite_sequence w < i /\
                   forall n, In n (notes w) -> id n < i) (assigned stmts w) /\
  (forall n, In n (notes w) ->
             ~ In (id n) (assigned (DeleteRow (id n) :: stmts) w)).
Proof.
  intros Hw. destruct (assigned_above stmts w Hw) as [Hs Ha].
  split; [assumption|]. split.
  - eapply Forall_impl; [|exact Ha]. cbv beta. intros i Hi. split; [assumption|].
    intros n Hn. apply max_rowid_ge in Hn. unfold counter_ok in Hw. lia.
  - intros n Hn Hin. cbn [assigned] in Hin.
    destruct (assigned_above stmts _ (counter_ok_delete (id n) w Hw)) as [_ Ha'].
    rewrite Forall_forall in Ha'. specialize (Ha' _ Hin). cbn in Ha'.
    apply max_rowid_ge in Hn. unfold counter_ok in Hw. lia.
Qed.

(** C7. The total of a list response is the number of rows of the whole
    table, with or without a search query; the notes returned are never
    more than that. *)
Theorem total_is_unfiltered (limit offset : Z) (search : option string) (w : World) :
  exists r,
    app.get_notes limit offset search w = (w, Return r) /\
    app.list_total r = Z.of_nat (List.length (notes w)) /\
    Z.of_nat (List.length (app.list_notes r)) <= app.list_total r.
Proof.
  destruct search as [[|c query]|]; eexists; (split; [reflexivity|]);
    cbn [app.list_total app.list_notes]; (split; [reflexivity|]).
  - pose proof (limit_offset_shorter limit offset
                  (order_by_created_at_desc (notes w))) as Hl.
    rewrite order_by_length in Hl. lia.
  - pose proof (limit_offset_shorter limit 0
                  (order_by_created_at_desc
                     (List.filter (database.search_where
                                     ("%" +:+ String c query +:+ "%")) (notes w))))
      as Hl.
    rewrite order_by_length in Hl.
    pose proof (filter_length_le
                  (database.search_where ("%" +:+ String c query +:+ "%"))
                  (notes w)).
    lia.
  - pose proof (limit_offset_shorter limit offset
                  (order_by_created_at_desc (notes w))) as Hl.
    rewrite order_by_length in Hl. lia.
Qed.

End StoreClaims.

(** ** Deleting a note *)

Section Delete.
Context `{Host}.

Lemma find_none_iff (note_id : Z) (l : list Note) :
  List.find (fun n => id n =? note_id) l = None <->
  (forall n, In n l -> id n <> note_id).
Proof.
  split.
  - intros Hf n Hn E. apply (find_none _ _ Hf) in Hn.
    apply Z.eqb_neq in Hn. contradiction.
  - intros Hall. induction l as [|m l IH]; simpl; [reflexivity|].
    destruct (Z.eqb_spec (id m) note_id) as [E|_].
    + exfalso. apply (Hall m); simpl; auto.
    + apply IH. intros n Hn. apply Hall. simpl; auto.
Qed.

Lemma stat_error_present (p : string) (node : Node) (w : World) :
  disk w !! p = Some node -> node <> Denied -> stat_error p w = None.
Proof.
  intros Hp Hnode. unfold stat_error. rewrite Hp.
  destruct node; [reflexivity|reflexivity|congruence].
Qed.

Lemma stat_error_os (p : string) (w : World) (e : Exc) :
  stat_error p w = Some e -> exists msg, e = OSError msg.
Proof.
  unfold stat_error.
  assert (Hwalk : forall comps above,
             walk (disk w) p above comps = Some e -> exists msg, e = OSError msg).
  { induction comps as [|part rest IH]; intros above; cbn [walk];
      [discriminate|].
    destruct (NAME_MAX <? fs_length part)%nat;
      [intros [= <-]; eexists; reflexivity|].
    destruct rest as [|next rest]; [discriminate|].
    destruct (String.eqb part ""); [apply IH|].
    destruct (disk w !! _) as [[| |]|]; try discriminate; [apply IH|].
    intros [= <-]. eexists; reflexivity. }
  destruct (disk w !! p) as [[| |]|]; try discriminate.
  - intros [= <-]. eexists; reflexivity.
  - destruct (has_nul p); [discriminate|].
    destruct (PATH_MAX <=? fs_length p)%nat; [|apply Hwalk].
    intros [= <-]. eexists; reflexivity.
Qed.

Lemma path_exists_raises (p : string) (e : Exc) (w : World) :
  stat_error p w = Some e -> path_exists p w = (log_call (Stat p) w, Raise e).
Proof. intros He. unfold path_exists. now rewrite He. Qed.

Lemma path_exists_returns (p : string) (w : World) :
  stat_error p w = None ->
  path_exists p w =
  (log_call (Stat p) w,
   Return (match disk w !! p with Some _ => true | None => false end)).
Proof. intros He. unfold path_exists. now rewrite He. Qed.

(** Where the blob path cannot be looked up, removing the blob raises
    what the lookup raised, after that one call. *)
Lemma remove_blob_raises (n : Note) (e : Exc) (w : World) :
  blob_error n w = Some e ->
  exists stored,
    file_path n = Some stored /\ stored <> "" /\
    stat_error (str (Path_of stored)) w = Some e /\
    app.remove_blob n w = (log_call (Stat (str (Path_of stored))) w, Raise e).
Proof.
  unfold blob_error, app.remove_blob.
  destruct (file_path n) as [[|c stored]|]; try discriminate.
  intros He. exists (String c stored).
  split; [reflexivity|]. split; [discriminate|]. split; [exact He|].
  unfold bind. now rewrite (path_exists_raises _ _ _ He).
Qed.

(** Where it can, removing the blob returns and never touches the
    table; when [unlink] raises, a line is printed and the disk stays
    as it was. *)
Lemma remove_blob_returns (n : Note) (w : World) :
  blob_error n w = None ->
  exists w1,
    app.remove_blob n w = (w1, Return tt) /\
    notes w1 = notes w /\
    (forall stored e w2,
        file_path n = Some stored -> stored <> "" ->
        disk w !! str (Path_of stored) <> None ->
        unlink (str (Path_of stored))
               (log_call (Stat (str (Path_of stored))) w) = (w2, Raise e) ->
        stdout w1 = stdout w ++ [app.unlink_warning (str (Path_of stored)) e] /\
        disk w1 = disk w).
Proof.
  unfold blob_error, app.remove_blob.
  destruct (file_path n) as [[|c stored]|].
  - intros _. eexists. split; [reflexivity|]. split; [reflexivity|].
    intros ? ? ? [= <-]. congruence.
  - set (p := str (Path_of (String c stored))). intros Hok.
    unfold bind. rewrite (path_exists_returns _ _ Hok).
    destruct (disk w !! p) as [node|] eqn:Hp.
    + unfold try_except.
      destruct (unlink p (log_call (Stat p) w)) as [w2 [[]|e]] eqn:Hu.
      * eexists. split; [reflexivity|]. split.
        -- unfold unlink in Hu. cbn [disk log_call] in Hu. rewrite Hp in Hu.
           destruct node; [discriminate| |discriminate].
           destruct (decide (p ∈ undeletable (log_call (Stat p) w)));
             [discriminate|].
           now injection Hu as <-.
        -- intros s e w3 [= <-] _ _. fold p. rewrite Hu. discriminate.
      * eexists. split; [reflexivity|].
        assert (Hw2 : w2 = log_call (Unlink p) (log_call (Stat p) w)).
        { unfold unlink in Hu. cbn [disk log_call] in Hu. rewrite Hp in Hu.
          destruct node.
          - now injection Hu as <- _.
          - destruct (decide (p ∈ undeletable (log_call (Stat p) w)));
              [|discriminate].
            now injection Hu as <- _.
          - now injection Hu as <- _. }
        subst w2. split; [reflexivity|].
        intros s e' w3 [= <-] _ _. fold p. rewrite Hu. intros [= _ <-].
        split; reflexivity.
    + eexists. split; [reflexivity|]. split; [reflexivity|].
      intros s e w3 [= <-] _ Hd. fold p in Hd. congruence.
  - intros _. eexists. split; [reflexivity|]. split; [reflexivity|].
    intros ? ? ? [=].
Qed.

(** Either way the table is as it was. *)
Lemma remove_blob_notes (n : Note) (w : World) :
  notes (fst (app.remove_blob n w)) = notes w /\
  sqlite_sequence (fst (app.remove_blob n w)) = sqlite_sequence w.
Proof.
  destruct (blob_error n w) as [e|] eqn:He.
  - destruct (remove_blob_raises n e w He) as (stored & _ & _ & _ & ->).
    split; reflexivity.
  - unfold blob_error in He. unfold app.remove_blob.
    destruct (file_path n) as [[|c stored]|]; try (split; reflexivity).
    set (p := str (Path_of (String c stored))) in *.
    unfold bind. rewrite (path_exists_returns _ _ He).
    destruct (disk w !! p) as [node|] eqn:Hp; [|split; reflexivity].
    unfold try_except, unlink. cbn [disk log_call undeletable]. rewrite Hp.
    destruct node; try (split; reflexivity).
    destruct (decide (p ∈ undeletable w)); split; reflexivity.
Qed.

(** The run of [delete] on a note whose blob path cannot be looked
    up. *)
Lemma delete_note_raises (note_id : Z) (n : Note) (e : Exc) (w : World) :
  List.find (fun m => id m =? note_id) (notes w) = Some n ->
  blob_error n w = Some e ->
  exists stored,
    file_path n = Some stored /\ stored <> "" /\
    app.delete_note note_id w =
      (log_call (Stat (str (Path_of stored))) w, Raise e).
Proof.
  intros Hn He.
  destruct (remove_blob_raises n e w He) as (stored & Hfp & Hne & _ & Hrun).
  exists stored. split; [exact Hfp|]. split; [exact Hne|].
  unfold app.delete_note, bind, database.get_note_by_id. now rewrite Hn, Hrun.
Qed.

(** C5 (the code at the failing input). The existence test of line 215
    stands before the [try]: when looking up the blob path of an
    existing note raises, [delete] ends with that error after this one
    file-system call.  The error is an [OSError], not the 404; nothing
    is printed; the row is not deleted and [get] still returns it. *)
Theorem delete_stops_at_stat_failure (note_id : Z) (n : Note)
    (stored : string) (e : Exc) (w : World) :
  List.find (fun m => id m =? note_id) (notes w) = Some n ->
  file_path n = Some stored -> stored <> "" ->
  stat_error (str (Path_of stored)) w = Some e ->
  let w' := log_call (Stat (str (Path_of stored))) w in
  app.delete_note note_id w = (w', Raise e) /\
  (exists msg, e = OSError msg) /\
  notes w' = notes w /\ stdout w' = stdout w /\ disk w' = disk w /\
  app.get_note note_id w' = (w', Return (app.mkNoteResponse true n)).
Proof.
  intros Hn Hfp Hne He w'.
  assert (Hb : blob_error n w = Some e).
  { unfold blob_error. rewrite Hfp. destruct stored; [congruence|exact He]. }
  destruct (delete_note_raises note_id n e w Hn Hb) as (stored' & Hfp' & _ & Hrun).
  rewrite Hfp in Hfp'. injection Hfp' as <-.
  split; [exact Hrun|]. split; [exact (stat_error_os _ _ _ He)|].
  repeat (split; [reflexivity|]).
  unfold app.get_note, bind, database.get_note_by_id. cbn [notes w' log_call].
  now rewrite Hn.
Qed.

(** X18. [delete] on an id SQLite can bind answers 404 exactly when no
    note has the id, and then the world is as before.  When the note exists
    and its blob path can be looked up the answer is success: the row
    is removed whatever happened to the blob (a failing unlink is
    printed and dropped), and afterwards neither [get] nor any listing
    shows a note with that id. *)
Theorem delete_note_outcome (note_id : Z) (w : World) :
  sqlite_integer note_id ->
  ((forall n, In n (notes w) -> id n <> note_id) <->
   snd (app.delete_note note_id w) = Raise (HTTPException 404 "Note not found")) /\
  ((forall n, In n (notes w) -> id n <> note_id) ->
   fst (app.delete_note note_id w) = w) /\
  (forall n, List.find (fun m => id m =? note_id) (notes w) = Some n ->
     blob_error n w = None ->
     exists w',
       app.delete_note note_id w =
         (w', Return (app.mkDeleteResponse true "Note deleted successfully")) /\
       notes w' = List.filter (fun m => negb (id m =? note_id)) (notes w) /\
       app.get_note note_id w' = (w', Raise (HTTPException 404 "Note not found")) /\
       (forall limit offset search r,
           app.get_notes limit offset search w' = (w', Return r) ->
           Forall (fun m => id m <> note_id) (app.list_notes r)) /\
       (forall stored e w2,
           file_path n = Some stored -> stored <> "" ->
           disk w !! str (Path_of stored) <> None ->
           unlink (str (Path_of stored))
                  (log_call (Stat (str (Path_of stored))) w) = (w2, Raise e) ->
           stdout w' = stdout w ++ [app.unlink_warning (str (Path_of stored)) e] /\
           disk w' = disk w)).
Proof.
  intros _.
  assert (Hfound : forall n,
             List.find (fun m => id m =? note_id) (notes w) = Some n ->
             blob_error n w = None ->
             exists w1,
               app.remove_blob n w = (w1, Return tt) /\
               app.delete_note note_id w =
                 (mkWorld (List.filter (fun m => negb (id m =? note_id)) (notes w))
                          (sqlite_sequence w1) (disk w1) (undeletable w1) (stdout w1)
                          (fs_calls w1) (clock_reads w1) (uuid_draws w1),
                  Return (app.mkDeleteResponse true "Note deleted successfully"))).
  { intros n Hn Hok.
    destruct (remove_blob_returns n w Hok) as (w1 & Hr & Hnotes & _).
    exists w1. split; [assumption|].
    unfold app.delete_note, bind, database.get_note_by_id. rewrite Hn, Hr.
    unfold database.delete_note. rewrite Hnotes.
    destruct (find_some _ _ Hn) as [Hin Hid].
    pose proof (filter_shrinks (fun m => negb (id m =? note_id)) (notes w) n Hin)
      as Hlt.
    cbv beta in Hlt. rewrite Hid in Hlt. specialize (Hlt eq_refl).
    destruct (Z.ltb_spec 0
                (Z.of_nat (List.length (notes w)) -
                 Z.of_nat (List.length
                             (List.filter (fun m => negb (id m =? note_id))
                                          (notes w))))) as [_|Hge];
      [reflexivity|lia]. }
  assert (Hmissing :
            List.find (fun m => id m =? note_id) (notes w) = None ->
            app.delete_note note_id w =
              (w, Raise (HTTPException 404 "Note not found"))).
  { intros Hn. unfold app.delete_note, bind, database.get_note_by_id.
    now rewrite Hn. }
  split; [|split].
  - split.
    + intros Hall. apply find_none_iff in Hall. now rewrite (Hmissing Hall).
    + intros Hout. apply find_none_iff.
      destruct (List.find (fun m => id m =? note_id) (notes w)) as [n|] eqn:Hn;
        [|reflexivity].
      destruct (blob_error n w) as [e|] eqn:He.
      * destruct (delete_note_raises note_id n e w Hn He)
          as (stored & _ & _ & Hrun).
        unfold blob_error in He.
        destruct (file_path n) as [[|c s0]|]; try discriminate.
        destruct (stat_error_os _ _ _ He) as [msg ->].
        rewrite Hrun in Hout. discriminate.
      * destruct (Hfound n eq_refl He) as (w1 & _ & Hrun).
        rewrite Hrun in Hout. discriminate.
  - intros Hall. apply find_none_iff in Hall. now rewrite (Hmissing Hall).
  - intros n Hn Hok. destruct (Hfound n Hn Hok) as (w1 & Hr & Hrun).
    eexists. split; [exact Hrun|]. split; [reflexivity|]. split; [|split].
    + unfold app.get_note, bind, database.get_note_by_id. cbn [notes].
      now rewrite find_deleted.
    + intros limit offset search r Hlist. apply Forall_forall. intros m Hm.
      assert (Hin : In m (List.filter (fun m => negb (id m =? note_id)) (notes w))).
      { destruct search as [[|c query]|]; injection Hlist as <-;
          cbn [app.list_notes notes] in Hm;
          apply limit_offset_In in Hm; apply (proj1 (order_by_In _ _)) in Hm;
          trivial.
        now apply filter_In in Hm as [Hm _]. }
      apply filter_In in Hin as [_ Hne].
      apply negb_true_iff, Z.eqb_neq in Hne. exact Hne.
    + destruct (remove_blob_returns n w Hok) as (w1' & Hr' & _ & Hswallow).
      rewrite Hr in Hr'. injection Hr' as <-.
      intros stored e w2 Hs Hne Hd Hu. cbn [stdout disk].
      exact (Hswallow stored e w2 Hs Hne Hd Hu).
Qed.

End Delete.

(** ** Serving a file *)

Section ServeFile.
Context `{Host}.

Lemma prefix_refl (s : string) : String.prefix s s = true.
Proof.
  induction s as [|c s IH]; simpl; [reflexivity|].
  destruct (ascii_dec c c); [assumption|congruence].
Qed.

Lemma contains_refl (s : string) : contains s s = true.
Proof. destruct s; cbn [contains]; now rewrite prefix_refl. Qed.

Lemma no_slash_cons (c : ascii) (s : string) :
  contains "/" (String c s) = false ->
  Ascii.eqb c "/" = false /\ contains "/" s = false.
Proof.
  cbn [contains]. intros Hc. apply orb_false_iff in Hc as [Hp Hc].
  split; [|assumption].
  apply Ascii.eqb_neq. intros ->. cbn [String.prefix] in Hp.
  destruct (ascii_dec "/" "/"); [|congruence].
  destruct s; discriminate.
Qed.

Lemma no_slash_split (s : string) :
  contains "/" s = false -> split_slash s = [s].
Proof.
  induction s as [|c s IH]; intros Hc; [reflexivity|].
  apply no_slash_cons in Hc as [Hc Hs]. cbn [split_slash].
  now rewrite Hc, (IH Hs).
Qed.

Lemma no_slash_relative (s : string) :
  contains "/" s = false -> String.prefix "/" s = false.
Proof.
  destruct s as [|c s]; intros Hc; [reflexivity|].
  apply no_slash_cons in Hc as [Hc _]. cbn [String.prefix].
  destruct (ascii_dec "/" c) as [<-|]; [discriminate|reflexivity].
Qed.

(** Where an accepted file name leads: to the uploads directory itself
    for [""] and ["."], and to its entry of that name otherwise. *)
Lemma accepted_path (filename : string) :
  contains "/" filename = false ->
  str (joinpath UPLOAD_DIR filename) =
  if String.eqb filename "" || String.eqb filename "." then "uploads"
  else "uploads/" +:+ filename.
Proof.
  intros Hs. unfold joinpath, Path_of.
  rewrite (no_slash_relative _ Hs), (no_slash_split _ Hs).
  cbn [anchored parts List.filter].
  destruct (String.eqb filename "" || String.eqb filename "."); reflexivity.
Qed.

Lemma accepted_path_inside (filename : string) :
  contains ".." filename = false -> contains "/" filename = false ->
  inside_uploads (str (joinpath UPLOAD_DIR filename)) = true.
Proof.
  intros Hd Hs. rewrite (accepted_path _ Hs).
  destruct (String.eqb filename "" || String.eqb filename ".") eqn:E;
    [reflexivity|].
  unfold inside_uploads, Path_of.
  change ("uploads/" +:+ filename)
    with (String "u" (String "p" (String "l" (String "o" (String "a"
           (String "d" (String "s" (String "/" filename)))))))).
  cbn [String.prefix split_slash Ascii.eqb Bool.eqb].
  rewrite (no_slash_split _ Hs).
  cbn [anchored parts List.filter String.eqb Ascii.eqb Bool.eqb negb orb andb].
  rewrite E. cbn [negb forallb andb].
  destruct (String.eqb_spec filename "..") as [->|_]; [|reflexivity].
  discriminate Hd.
Qed.

(** The run of [serve_file] on an accepted name, by what the lookup
    of its path gives. *)
Lemma serve_file_accepted (filename : string) (w : World) :
  contains ".." filename || contains "/" filename || contains "\" filename = false ->
  app.serve_file filename w =
  let p := str (joinpath UPLOAD_DIR filename) in
  match stat_error p w with
  | Some e => (log_call (Stat p) w, Raise e)
  | None =>
      match disk w !! p with
      | None => (log_call (Stat p) w, Raise (HTTPException 404 "File not found"))
      | Some Dir => (log_call (OpenRead p) (log_call (Stat p) w),
                     Raise (RuntimeError "File at path is not a file."))
      | Some Denied => (log_call (OpenRead p) (log_call (Stat p) w),
                        Raise (EACCES p))
      | Some (File data) =>
          (log_call (OpenRead p) (log_call (Stat p) w),
           Return (app.mkFileResponse p
                     match guess_type p with
                     | Some t => t
                     | None => "application/octet-stream"
                     end filename data))
      end
  end.
Proof.
  intros Hguard. unfold app.serve_file. rewrite Hguard.
  cbv zeta. set (p := str (joinpath UPLOAD_DIR filename)).
  unfold bind. destruct (stat_error p w) as [e|] eqn:He.
  - now rewrite (path_exists_raises _ _ _ He).
  - rewrite (path_exists_returns _ _ He).
    destruct (disk w !! p) as [node|] eqn:Hp; cbn [negb]; [|reflexivity].
    unfold read_bytes. cbn [disk log_call]. rewrite Hp.
    destruct node; reflexivity.
Qed.

Lemma fs_length_app (a b : string) :
  fs_length (a +:+ b) = (fs_length a + fs_length b)%nat.
Proof.
  induction a as [|c a IH]; [reflexivity|].
  change (String c a +:+ b) with (String c (a +:+ b)).
  cbn [fs_length]. rewrite IH. lia.
Qed.

Lemma has_nul_app (a b : string) :
  has_nul (a +:+ b) = has_nul a || has_nul b.
Proof.
  induction a as [|c a IH]; [reflexivity|].
  change (String c a +:+ b) with (String c (a +:+ b)).
  cbn [has_nul]. now rewrite IH, orb_assoc.
Qed.

(** Looking up an entry of the uploads directory that is not on the
    disk fails exactly when its name is longer than NAME_MAX bytes. *)
Lemma stat_error_entry (name : string) (w : World) :
  contains "/" name = false -> has_nul name = false ->
  disk w !! "uploads" = Some Dir ->
  disk w !! ("uploads/" +:+ name) = None ->
  stat_error ("uploads/" +:+ name) w =
  if (NAME_MAX <? fs_length name)%nat
  then Some (ENAMETOOLONG ("uploads/" +:+ name)) else None.
Proof.
  intros Hs Hn Hdir Hp. unfold stat_error. rewrite Hp.
  rewrite (has_nul_app "uploads/" name), Hn.
  change (has_nul "uploads/" || false) with false. cbv iota.
  rewrite (fs_length_app "uploads/" name).
  change (fs_length "uploads/") with 8%nat.
  assert (Hsplit : split_slash ("uploads/" +:+ name) = ["uploads"; name]).
  { change ("uploads/" +:+ name)
      with (String "u" (String "p" (String "l" (String "o" (String "a"
             (String "d" (String "s" (String "/" name)))))))).
    cbn [split_slash Ascii.eqb Bool.eqb]. now rewrite (no_slash_split _ Hs). }
  rewrite Hsplit.
  assert (Hwalk : walk (disk w) ("uploads/" +:+ name) None ["uploads"; name] =
                  if (NAME_MAX <? fs_length name)%nat
                  then Some (ENAMETOOLONG ("uploads/" +:+ name)) else None).
  { cbn [walk]. change (NAME_MAX <? fs_length "uploads")%nat with false.
    cbv iota. change (String.eqb "uploads" "") with false. cbv iota.
    rewrite Hdir. now destruct (NAME_MAX <? fs_length name)%nat. }
  rewrite Hwalk.
  destruct (Nat.leb_spec PATH_MAX (8 + fs_length name)) as [Hlong|_];
    [|reflexivity].
  destruct (Nat.ltb_spec NAME_MAX (fs_length name)) as [_|Hshort];
    [reflexivity|].
  unfold PATH_MAX, NAME_MAX in *. lia.
Qed.

(** C4 (the code at the failing input). An accepted file name of more
    than NAME_MAX bytes, for which nothing is on the disk, is not
    answered with 404: the existence test of line 242 raises the
    [OSError] of the lookup, and nothing in [serve_file] handles it. *)
Theorem serve_file_name_too_long (filename : string) (w : World) :
  contains ".." filename || contains "/" filename || contains "\" filename = false ->
  has_nul filename = false ->
  (NAME_MAX < fs_length filename)%nat ->
  disk w !! "uploads" = Some Dir ->
  disk w !! str (joinpath UPLOAD_DIR filename) = None ->
  str (joinpath UPLOAD_DIR filename) = "uploads/" +:+ filename /\
  app.serve_file filename w =
    (log_call (Stat ("uploads/" +:+ filename)) w,
     Raise (OSError ("[Errno 36] File name too long: 'uploads/"
                     +:+ filename +:+ "'"))).
Proof.
  intros Hguard Hn Hlong Hdir Hp.
  rewrite (serve_file_accepted _ _ Hguard). cbv zeta.
  apply orb_false_iff in Hguard as [Hguard _].
  apply orb_false_iff in Hguard as [_ Hs].
  assert (Hpath : str (joinpath UPLOAD_DIR filename) = "uploads/" +:+ filename).
  { rewrite (accepted_path _ Hs).
    destruct (String.eqb_spec filename "") as [->|_];
      [change (fs_length "") with 0%nat in Hlong; lia|].
    destruct (String.eqb_spec filename ".") as [->|_];
      [change (fs_length ".") with 1%nat in Hlong; unfold NAME_MAX in Hlong;
       lia|].
    reflexivity. }
  rewrite Hpath in Hp |- *. split; [reflexivity|].
  rewrite (stat_error_entry _ _ Hs Hn Hdir Hp).
  apply Nat.ltb_lt in Hlong. rewrite Hlong. reflexivity.
Qed.

(** X17. A file name with [..], [/] or a backslash is refused with 400
    and the world, file-system calls included, is left as it was; an
    accepted name of at most NAME_MAX bytes (or with a NUL character)
    whose path is not on disk is answered with 404; and whatever the
    name, every file-system call stays inside the uploads directory,
    nothing is written, and a response carries the bytes of a file
    found there. *)
Theorem serve_file_guard (filename : string) (w : World) :
  (contains ".." filename || contains "/" filename || contains "\" filename = true ->
   app.serve_file filename w = (w, Raise (HTTPException 400 "Invalid filename"))) /\
  (contains ".." filename || contains "/" filename || contains "\" filename = false ->
   disk w !! "uploads" = Some Dir ->
   disk w !! str (joinpath UPLOAD_DIR filename) = None ->
   has_nul filename = true \/ (fs_length filename <= NAME_MAX)%nat ->
   app.serve_file filename w =
     (log_call (Stat (str (joinpath UPLOAD_DIR filename))) w,
      Raise (HTTPException 404 "File not found"))) /\
  (exists calls,
     fs_calls (fst (app.serve_file filename w)) = fs_calls w ++ calls /\
     Forall (fun c => inside_uploads (fs_path c) = true) calls /\
     disk (fst (app.serve_file filename w)) = disk w) /\
  (forall w' r,
     app.serve_file filename w = (w', Return r) ->
     inside_uploads (app.response_path r) = true /\
     disk w !! app.response_path r = Some (File (app.response_body r))).
Proof.
  destruct (contains ".." filename || contains "/" filename || contains "\" filename)
    eqn:Hguard.
  - assert (Hrun : app.serve_file filename w =
                   (w, Raise (HTTPException 400 "Invalid filename"))).
    { unfold app.serve_file. now rewrite Hguard. }
    rewrite Hrun. split; [reflexivity|]. split; [discriminate|]. split.
    + exists []. cbn [fst]. rewrite app_nil_r. repeat split. constructor.
    + discriminate.
  - rewrite (serve_file_accepted _ _ Hguard). cbv zeta.
    apply orb_false_iff in Hguard as [Hguard _].
    apply orb_false_iff in Hguard as [Hdots Hslash].
    pose proof (accepted_path_inside _ Hdots Hslash) as Hin.
    pose proof (accepted_path _ Hslash) as Hpath.
    set (p := str (joinpath UPLOAD_DIR filename)) in *.
    split; [discriminate|]. split.
    { intros _ Hdir Hp Hname. rewrite Hp.
      destruct (String.eqb filename "" || String.eqb filename ".");
        [congruence|].
      rewrite Hpath in Hp |- *.
      destruct (has_nul filename) eqn:Hn.
      - unfold stat_error. rewrite Hp, (has_nul_app "uploads/" filename), Hn.
        reflexivity.
      - rewrite (stat_error_entry _ _ Hslash Hn Hdir Hp).
        destruct Hname as [|Hname]; [discriminate|].
        apply Nat.ltb_ge in Hname. now rewrite Hname. }
    destruct (stat_error p w) as [e|] eqn:He.
    { split; [|discriminate].
      exists [Stat p]. cbn [fst fs_calls log_call disk].
      repeat split. repeat constructor; exact Hin. }
    destruct (disk w !! p) as [[|data|]|] eqn:Hp.
    + split; [|discriminate].
      exists [Stat p; OpenRead p]. cbn [fst fs_calls log_call disk].
      rewrite <- app_assoc. repeat split. repeat constructor; exact Hin.
    + split.
      * exists [Stat p; OpenRead p]. cbn [fst fs_calls log_call disk].
        rewrite <- app_assoc. repeat split. repeat constructor; exact Hin.
      * intros w' r [= _ <-]. cbn [app.response_path app.response_body].
        now split.
    + split; [|discriminate].
      exists [Stat p; OpenRead p]. cbn [fst fs_calls log_call disk].
      rewrite <- app_assoc. repeat split. repeat constructor; exact Hin.
    + split; [|discriminate].
      exists [Stat p]. cbn [fst fs_calls log_call disk].
      repeat split. repeat constructor; exact Hin.
Qed.

End ServeFile.

(** ** Listing and searching *)

Section Listing.
Context `{Host}.

Lemma sorted_app_l (l1 l2 : list Note) :
  Sorted newer_first (l1 ++ l2) -> Sorted newer_first l1.
Proof.
  induction l1 as [|a l1 IH]; simpl; intros Hs; [constructor|].
  inversion Hs as [|? ? Hs' Hhd]; subst. constructor; [now apply IH|].
  destruct l1; simpl in *; constructor. now inversion Hhd.
Qed.

Lemma limit_offset_general (limit offset : Z) (l : list Note) (k : nat) :
  nth_error (limit_offset limit offset l) k =
  if (limit <? 0) || (Z.of_nat k <? limit)
  then nth_error l (Z.to_nat (Z.max 0 offset) + k)
  else None.
Proof.
  assert (Ho : Z.to_nat (Z.max 0 offset) = Z.to_nat offset) by lia.
  rewrite Ho. destruct (Z.ltb_spec limit 0) as [Hneg|Hpos]; cbn [orb].
  - rewrite limit_offset_unbounded by assumption. apply nth_error_skipn.
  - unfold limit_offset.
    destruct (Z.ltb_spec limit 0) as [?|_]; [lia|].
    rewrite nth_error_firstn, nth_error_skipn.
    destruct (Z.ltb_spec (Z.of_nat k) limit), (Nat.ltb_spec k (Z.to_nat limit));
      (reflexivity || lia).
Qed.

(** C6 (amended). Without a search query the listing is the table in
    newest-first order cut to a window: its k-th entry is entry
    max(0, offset) + k of that order, for every k below the limit, and
    for every k when the limit is negative.  For limit and offset that
    are not negative this is the window from offset to offset + limit;
    over three notes, limit 1 and offset 1 give the second newest. *)
Theorem list_window (limit offset : Z) (w : World) :
  let ordered := order_by_created_at_desc (notes w) in
  Permutation ordered (notes w) /\
  Sorted newer_first ordered /\
  exists r,
    app.get_notes limit offset None w = (w, Return r) /\
    (forall k : nat,
        nth_error (app.list_notes r) k =
        if (limit <? 0) || (Z.of_nat k <? limit)
        then nth_error ordered (Z.to_nat (Z.max 0 offset) + k)
        else None) /\
    (0 <= limit -> 0 <= offset ->
     forall k : nat,
       nth_error (app.list_notes r) k =
       if Z.of_nat k <? limit then nth_error ordered (Z.to_nat offset + k)
       else None) /\
    (limit = 1 -> offset = 1 ->
     forall a b c, ordered = [a; b; c] -> app.list_notes r = [b]).
Proof.
  cbv zeta. split; [apply order_by_perm|]. split; [apply order_by_sorted|].
  eexists. split; [reflexivity|]. cbn [app.list_notes].
  split; [intros k; apply limit_offset_general|]. split.
  - intros Hl Ho k. now apply limit_offset_nth.
  - intros -> -> a b c ->. reflexivity.
Qed.

(** C10. An empty search string is the same request as no search
    string, and what it returns is the listing without a search: the
    table in newest-first order, of which the k-th entry returned is
    entry max(0, offset) + k, for every k below the limit (for every k
    when the limit is negative); for limit and offset that are not
    negative this is the window from offset to offset + limit.  The
    offset is applied and echoed, and the total is the whole table. *)
Theorem empty_search_is_no_search (limit offset : Z) (w : World) :
  let ordered := order_by_created_at_desc (notes w) in
  app.get_notes limit offset (Some "") w = app.get_notes limit offset None w /\
  Permutation ordered (notes w) /\
  Sorted newer_first ordered /\
  exists r,
    app.get_notes limit offset (Some "") w = (w, Return r) /\
    app.list_total r = Z.of_nat (List.length (notes w)) /\
    app.list_limit r = limit /\
    app.list_offset r = offset /\
    (forall k : nat,
        nth_error (app.list_notes r) k =
        if (limit <? 0) || (Z.of_nat k <? limit)
        then nth_error ordered (Z.to_nat (Z.max 0 offset) + k)
        else None) /\
    (0 <= limit -> 0 <= offset ->
     forall k : nat,
       nth_error (app.list_notes r) k =
       if Z.of_nat k <? limit then nth_error ordered (Z.to_nat offset + k)
       else None).
Proof.
  cbv zeta. split; [reflexivity|].
  split; [apply order_by_perm|]. split; [apply order_by_sorted|].
  eexists. split; [reflexivity|].
  cbn [app.list_notes app.list_total app.list_limit app.list_offset].
  repeat (split; [reflexivity|]).
  split; [intros k; apply limit_offset_general|].
  intros Hl Ho k. now apply limit_offset_nth.
Qed.

(** C3 (amended). With a search query the listing holds the newest
    notes that the WHERE clause of [search_notes] selects: it is ordered
    newest first, it is the front of an ordering of all selected notes,
    it is all of them when the limit is negative or not below their
    number, and otherwise has limit many entries.  The offset plays no
    part.  For a query without a NUL character, a note that has the
    query as a substring of content, tags or file_name (each read up to
    its first NUL character) is selected; when the query has no [%] and
    no [_] either, the selected notes are exactly the notes that have
    the query as a substring of one of these columns up to ASCII letter
    case. *)
Theorem search_result (limit offset : Z) (query : string) (w : World) :
  query <> "" ->
  exists r rest,
    app.get_notes limit offset (Some query) w = (w, Return r) /\
    Sorted newer_first (app.list_notes r ++ rest) /\
    Permutation (app.list_notes r ++ rest)
      (List.filter (database.search_where ("%" +:+ query +:+ "%")) (notes w)) /\
    Sorted newer_first (app.list_notes r) /\
    (forall n, In n (app.list_notes r) ->
               In n (notes w) /\
               database.search_where ("%" +:+ query +:+ "%") n = true) /\
    (limit < 0 \/
     Z.of_nat (List.length (List.filter
                              (database.search_where ("%" +:+ query +:+ "%"))
                              (notes w))) <= limit ->
     rest = []) /\
    (0 <= limit ->
     Z.of_nat (List.length (app.list_notes r)) =
     Z.min limit
       (Z.of_nat (List.length (List.filter
                                 (database.search_where ("%" +:+ query +:+ "%"))
                                 (notes w))))) /\
    (forall offset', app.get_notes limit offset' (Some query) w =
                     (w, Return (app.mkListResponse
                                   true (app.list_notes r) (app.list_total r)
                                   limit offset'))) /\
    (has_nul query = false ->
     forall n, has_substring query (as_c_strings n) = true ->
               database.search_where ("%" +:+ query +:+ "%") n = true) /\
    (has_nul query = false -> wildcard_free query = true ->
     forall n, database.search_where ("%" +:+ query +:+ "%") n =
               has_substring_nocase query (as_c_strings n)).
Proof.
  intros Hq. destruct query as [|c query]; [congruence|].
  set (pattern := "%" +:+ String c query +:+ "%").
  set (hits := List.filter (database.search_where pattern) (notes w)).
  set (ordered := order_by_created_at_desc hits).
  assert (Hcut : ordered =
                 limit_offset limit 0 ordered ++
                 (if limit <? 0 then []
                  else skipn (Z.to_nat limit) ordered)).
  { unfold limit_offset. change (skipn (Z.to_nat 0) ordered) with ordered.
    destruct (limit <? 0); [now rewrite app_nil_r|].
    symmetry. apply firstn_skipn. }
  eexists _, (if limit <? 0 then [] else skipn (Z.to_nat limit) ordered).
  split; [reflexivity|].
  cbn [app.list_notes app.list_total]. fold pattern hits ordered.
  rewrite <- Hcut.
  split; [apply order_by_sorted|]. split; [apply order_by_perm|].
  split.
  { apply (sorted_app_l _ (if limit <? 0 then []
                           else skipn (Z.to_nat limit) ordered)).
    rewrite <- Hcut. apply order_by_sorted. }
  split.
  { intros n Hn. apply limit_offset_In in Hn.
    apply (proj1 (order_by_In _ _)) in Hn. now apply filter_In in Hn. }
  split.
  { intros Hall. destruct (Z.ltb_spec limit 0) as [_|Hpos]; [reflexivity|].
    apply skipn_all2. unfold ordered. rewrite order_by_length.
    destruct Hall as [?|Hall]; lia. }
  split.
  { intros Hl. rewrite limit_offset_length by assumption.
    unfold ordered. now rewrite order_by_length. }
  split; [reflexivity|]. split.
  - intros Hnul n Hn. unfold has_substring, as_c_strings in Hn.
    cbn [content tags file_name] in Hn.
    unfold database.search_where, pattern.
    repeat (apply orb_true_iff in Hn as [Hn|Hn]).
    + destruct (content n) as [s|]; [|discriminate].
      cbn [column_contains column_like option_map] in *.
      now rewrite (contains_like _ _ Hnul Hn).
    + destruct (tags n) as [s|]; [|discriminate].
      cbn [column_contains column_like option_map] in *.
      rewrite (contains_like _ _ Hnul Hn). now rewrite orb_true_r.
    + destruct (file_name n) as [s|]; [|discriminate].
      cbn [column_contains column_like option_map] in *.
      rewrite (contains_like _ _ Hnul Hn). now rewrite !orb_true_r.
  - intros Hnul Hw n.
    unfold database.search_where, has_substring_nocase, as_c_strings, pattern.
    cbn [content tags file_name].
    destruct (content n), (tags n), (file_name n);
      cbn [column_contains column_like option_map];
      now rewrite ?(like_literal _ _ Hnul Hw).
Qed.

End Listing.

(** ** Creating notes *)

Section Upload.
Context `{Host}.

Lemma truthy_named (f : app.UploadFile) :
  truthy (app.filename f) = true ->
  exists name, app.filename f = Some name /\ name <> "".
Proof.
  destruct (app.filename f) as [[|c name]|]; try discriminate.
  intros _. now exists (String c name).
Qed.

Lemma upload_file_nameless (text tg : option string) (f : app.UploadFile)
    (w : World) :
  truthy (app.filename f) = false ->
  app.upload_file text tg f w = (w, Return None).
Proof.
  unfold app.upload_file.
  destruct (app.filename f) as [[|c name]|]; try discriminate; reflexivity.
Qed.

Lemma upload_file_too_large (text tg : option string) (f : app.UploadFile)
    (name : string) (w : World) :
  app.filename f = Some name -> name <> "" -> app.MAX_UPLOAD < size f ->
  app.upload_file text tg f w =
  (w, Raise (HTTPException 413 ("File " +:+ name +:+ " is too large (max 50MB)"))).
Proof.
  intros Hf Hn Hs. unfold app.upload_file. rewrite Hf.
  destruct name as [|c name]; [congruence|].
  fold (size f). now destruct (Z.ltb_spec app.MAX_UPLOAD (size f)); [|lia].
Qed.

(** The row and the blob that one accepted file leaves behind. *)
Lemma upload_file_stored (text tg : option string) (f : app.UploadFile)
    (name : string) (w : World) :
  app.filename f = Some name -> name <> "" -> size f <= app.MAX_UPLOAD ->
  let unique_filename := uuid4 (uuid_draws w) +:+ suffix (Path_of name) in
  let p := str (joinpath UPLOAD_DIR unique_filename) in
  exists n,
    app.upload_file text tg f w =
      (mkWorld (notes w ++ [n]) (next_rowid w)
               (<[p := File (app.body f)]> (disk w)) (undeletable w) (stdout w)
               (fs_calls w ++ [OpenWrite p]) (S (clock_reads w))
               (S (uuid_draws w)),
       Return (Some (app.mkCreatedNote (id n) "file" (Some name)
                                       "File uploaded successfully"))) /\
    id n = next_rowid w /\ note_type n = "file" /\
    file_name n = Some name /\
    file_path n = Some ("uploads/" +:+ unique_filename) /\
    content n = (if truthy text then text else None) /\
    tags n = tg.
Proof.
  intros Hf Hn Hs. cbv zeta. unfold app.upload_file. rewrite Hf.
  destruct name as [|c name]; [congruence|].
  fold (size f). destruct (Z.ltb_spec app.MAX_UPLOAD (size f)); [lia|].
  exists (mkNote (next_rowid w) "file" (if truthy text then text else None)
                 (Some (String c name))
                 (Some ("uploads/" +:+ uuid4 (uuid_draws w)
                        +:+ suffix (Path_of (String c name))))
                 (if truthy (app.content_type f) then app.content_type f
                  else if truthy (guess_type (String c name))
                       then guess_type (String c name)
                       else Some "application/octet-stream")
                 tg (utcnow (clock_reads w)) (utcnow (clock_reads w))).
  split; [reflexivity|]. repeat split; reflexivity.
Qed.

Lemma upload_files_cons (text tg : option string) (f : app.UploadFile)
    (rest : list app.UploadFile) (created : list app.CreatedNote) (w : World) :
  app.upload_files text tg (f :: rest) created w =
  match app.upload_file text tg f w with
  | (w1, Return r) =>
      app.upload_files text tg rest
        (match r with Some c => created ++ [c] | None => created end) w1
  | (w1, Raise e) => (w1, Raise e)
  end.
Proof. reflexivity. Qed.

(** Whatever the sizes, the loop only ever adds rows of type "file",
    each for a named part of the request. *)
Lemma upload_files_rows (text tg : option string)
    (files : list app.UploadFile) (created : list app.CreatedNote) (w : World) :
  exists rows,
    notes (fst (app.upload_files text tg files created w)) = notes w ++ rows /\
    Forall (fun n => note_type n = "file" /\
                     exists f, In f (named files) /\ file_name n = app.filename f)
           rows.
Proof.
  revert created w. induction files as [|f files IH]; intros created w.
  - exists []. cbn. now rewrite app_nil_r.
  - rewrite upload_files_cons.
    destruct (truthy (app.filename f)) eqn:Hnamed.
    + destruct (truthy_named f Hnamed) as (name & Hf & Hne).
      destruct (Z.ltb_spec app.MAX_UPLOAD (size f)) as [Hbig|Hsmall].
      * rewrite (upload_file_too_large text tg f name w Hf Hne Hbig).
        exists []. cbn. now rewrite app_nil_r.
      * destruct (upload_file_stored text tg f name w Hf Hne Hsmall)
          as (n & -> & _ & Hty & Hfn & _).
        match goal with
        | |- context [app.upload_files text tg files ?c ?w1] =>
            destruct (IH c w1) as (rows & Hrows & Hall)
        end.
        exists (n :: rows). rewrite Hrows. cbn [notes].
        rewrite <- app_assoc. split; [reflexivity|].
        unfold named. cbn [List.filter]. rewrite Hnamed. fold (named files).
        constructor.
        -- split; [assumption|]. exists f. split; [now left|congruence].
        -- eapply Forall_impl; [|exact Hall]. cbv beta.
           intros m (Hm & g & Hg & Hmg). split; [assumption|].
           exists g. split; [now right|assumption].
    + rewrite (upload_file_nameless text tg f w Hnamed).
      destruct (IH created w) as (rows & Hrows & Hall).
      exists rows. split; [assumption|].
      unfold named. cbn [List.filter]. rewrite Hnamed. exact Hall.
Qed.

(** When every named part passes the size check, the loop returns, with
    one row and one summary for each named part, in order. *)
Lemma upload_files_all (text tg : option string)
    (files : list app.UploadFile) (created : list app.CreatedNote) (w : World) :
  Forall within_limit files ->
  exists w' rows news,
    app.upload_files text tg files created w = (w', Return (created ++ news)) /\
    notes w' = notes w ++ rows /\
    Forall2 (fun f n => note_type n = "file" /\ file_name n = app.filename f)
            (named files) rows /\
    Forall2 (fun n c => app.created_id c = id n /\
                        app.created_note_type c = "file" /\
                        app.created_file_name c = file_name n)
            rows news.
Proof.
  intros Hall. revert created w.
  induction Hall as [|f files Hf Hall IH]; intros created w.
  - exists w, [], []. cbn. rewrite !app_nil_r. repeat split; constructor.
  - rewrite upload_files_cons.
    destruct (truthy (app.filename f)) eqn:Hnamed.
    + destruct (truthy_named f Hnamed) as (name & Hname & Hne).
      destruct (upload_file_stored text tg f name w Hname Hne (Hf Hnamed))
        as (n & -> & _ & Hty & Hfn & _).
      match goal with
      | |- context [app.upload_files text tg files ?c ?w1] =>
          destruct (IH c w1) as (w' & rows & news & -> & Hrows & Hr & Hn)
      end.
      exists w', (n :: rows),
        (app.mkCreatedNote (id n) "file" (Some name) "File uploaded successfully"
         :: news).
      rewrite <- app_assoc. split; [reflexivity|].
      rewrite Hrows. cbn [notes]. rewrite <- app_assoc. split; [reflexivity|].
      unfold named. cbn [List.filter]. rewrite Hnamed. fold (named files).
      split; constructor; trivial.
      * split; [assumption|congruence].
      * cbn. repeat split; congruence.
    + rewrite (upload_file_nameless text tg f w Hnamed).
      destruct (IH created w) as (w' & rows & news & -> & Hrows & Hr & Hn).
      exists w', rows, news. split; [reflexivity|]. split; [assumption|].
      unfold named. cbn [List.filter]. rewrite Hnamed. now split.
Qed.

(** The loop over [pre ++ rest], when [pre] passes the size check, is
    the loop over [rest] started where the loop over [pre] ends. *)
Lemma upload_files_app (text tg : option string)
    (pre rest : list app.UploadFile) (created : list app.CreatedNote) (w : World) :
  Forall within_limit pre ->
  exists w1 created1,
    app.upload_files text tg pre created w = (w1, Return created1) /\
    app.upload_files text tg (pre ++ rest) created w =
    app.upload_files text tg rest created1 w1.
Proof.
  intros Hall. revert created w.
  induction Hall as [|f pre Hf Hall IH]; intros created w.
  - now exists w, created.
  - cbn [app]. rewrite !upload_files_cons.
    destruct (truthy (app.filename f)) eqn:Hnamed.
    + destruct (truthy_named f Hnamed) as (name & Hname & Hne).
      destruct (upload_file_stored text tg f name w Hname Hne (Hf Hnamed))
        as (n & -> & _).
      apply IH.
    + rewrite (upload_file_nameless text tg f w Hnamed). apply IH.
Qed.

End Upload.

Section CreateClaims.
Context `{Host}.

Lemma create_note_upload (text link tg : option string)
    (files : list app.UploadFile) (w : World) :
  app.has_upload files = true ->
  app.create_note text link tg files w =
  match app.upload_files text tg files [] w with
  | (w', Return created) =>
      (w', Return (app.mkCreateResponse true created
                     (Z.of_nat (List.length created))))
  | (w', Raise e) => (w', Raise e)
  end.
Proof.
  intros Hu. unfold app.create_note, bind. rewrite Hu.
  now destruct (app.upload_files text tg files [] w) as [w' [created|e]].
Qed.

(** C1 (amended). The request is classified by the first test that
    holds.  A first part with a file name makes it an upload: every row
    it adds is a file note for a named part, and when no named part is
    over the size limit every named part gets its file note, in order.
    Otherwise a non-empty link gives one link note whose content is the
    link; otherwise a non-empty content gives one text note; otherwise
    the answer is 400 and the world is as before. *)
Theorem create_note_classification (text link tg : option string)
    (files : list app.UploadFile) (w : World) :
  (app.has_upload files = true ->
   (exists rows,
      notes (fst (app.create_note text link tg files w)) = notes w ++ rows /\
      Forall (fun n => note_type n = "file" /\
                       exists f, In f (named files) /\
                                 file_name n = app.filename f) rows) /\
   (Forall within_limit files ->
    exists w' rows r,
      app.create_note text link tg files w = (w', Return r) /\
      notes w' = notes w ++ rows /\
      Forall2 (fun f n => note_type n = "file" /\ file_name n = app.filename f)
              (named files) rows /\
      Forall2 (fun n c => app.created_id c = id n /\
                          app.created_note_type c = "file" /\
                          app.created_file_name c = file_name n)
              rows (app.create_notes r))) /\
  (app.has_upload files = false -> truthy link = true ->
   exists w' n,
     app.create_note text link tg files w =
       (w', Return (app.mkCreateResponse true
                      [app.mkCreatedNote (id n) "link" None
                                         "Link saved successfully"] 1)) /\
     notes w' = notes w ++ [n] /\ note_type n = "link" /\ content n = link) /\
  (app.has_upload files = false -> truthy link = false -> truthy text = true ->
   exists w' n,
     app.create_note text link tg files w =
       (w', Return (app.mkCreateResponse true
                      [app.mkCreatedNote (id n) "text" None
                                         "Note saved successfully"] 1)) /\
     notes w' = notes w ++ [n] /\ note_type n = "text" /\ content n = text) /\
  (app.has_upload files = false -> truthy link = false -> truthy text = false ->
   app.create_note text link tg files w =
     (w, Raise (HTTPException 400 "No content, link, or files provided"))).
Proof.
  split; [|split; [|split]].
  - intros Hu. rewrite (create_note_upload _ _ _ _ _ Hu). split.
    + destruct (upload_files_rows text tg files [] w) as (rows & Hrows & Hall).
      exists rows. split; [|assumption].
      now destruct (app.upload_files text tg files [] w) as [w' [created|e]].
    + intros Hall.
      destruct (upload_files_all text tg files [] w Hall)
        as (w' & rows & news & -> & Hrows & Hr & Hn).
      now exists w', rows, (app.mkCreateResponse true news
                              (Z.of_nat (List.length news))).
  - intros Hu Hl. unfold app.create_note, bind.
    rewrite Hu, Hl, create_note_run.
    eexists _, (mkNote (next_rowid w) "link" link None None None tg
                       (utcnow (clock_reads w)) (utcnow (clock_reads w))).
    repeat split; reflexivity.
  - intros Hu Hl Ht. unfold app.create_note, bind.
    rewrite Hu, Hl, Ht, create_note_run.
    eexists _, (mkNote (next_rowid w) "text" text None None None tg
                       (utcnow (clock_reads w)) (utcnow (clock_reads w))).
    repeat split; reflexivity.
  - intros Hu Hl Ht. unfold app.create_note, bind.
    now rewrite Hu, Hl, Ht.
Qed.

(** The first named part over the limit, with the parts before it. *)
Lemma first_over_limit (files : list app.UploadFile) (f : app.UploadFile) :
  In f files -> truthy (app.filename f) = true -> app.MAX_UPLOAD < size f ->
  exists pre g post name,
    files = pre ++ g :: post /\ Forall within_limit pre /\
    app.filename g = Some name /\ name <> "" /\ app.MAX_UPLOAD < size g.
Proof.
  intros Hin Hnamed Hbig. induction files as [|x files IH]; [contradiction|].
  destruct (truthy (app.filename x)) eqn:Hx.
  - destruct (Z.ltb_spec app.MAX_UPLOAD (size x)) as [Hxbig|Hxsmall].
    + destruct (truthy_named x Hx) as (name & Hname & Hne).
      now exists [], x, files, name.
    + destruct Hin as [->|Hin]; [lia|].
      destruct (IH Hin) as (pre & g & post & name & -> & Hpre & Hg).
      exists (x :: pre), g, post, name. split; [reflexivity|].
      split; [|assumption]. constructor; [|assumption]. now intros _.
  - destruct Hin as [->|Hin]; [congruence|].
    destruct (IH Hin) as (pre & g & post & name & -> & Hpre & Hg).
    exists (x :: pre), g, post, name. split; [reflexivity|].
    split; [|assumption]. constructor; [|assumption].
    intros Hx'. congruence.
Qed.

(** C2 (amended). In an upload request, a part with a file name and
    more than 50 MiB of data makes the answer 413, and handling the
    first such part changes nothing: the world is the one left by the
    parts before it, with no row and no blob for it.  A named part of
    50 MiB or less passes the check and leaves its row and its blob,
    and a request whose named parts all pass is not rejected.  A part
    without a file name is passed over before its size is looked at. *)
Theorem oversized_upload_rejected (text link tg : option string)
    (files : list app.UploadFile) (w : World) :
  app.has_upload files = true ->
  (forall f, In f files -> truthy (app.filename f) = true ->
             app.MAX_UPLOAD < size f ->
             exists name,
               snd (app.create_note text link tg files w) =
               Raise (HTTPException 413
                        ("File " +:+ name +:+ " is too large (max 50MB)"))) /\
  (forall pre f post name,
      files = pre ++ f :: post -> Forall within_limit pre ->
      app.filename f = Some name -> name <> "" ->
      exists w1 created,
        app.upload_files text tg pre [] w = (w1, Return created) /\
        (app.MAX_UPLOAD < size f ->
         app.upload_file text tg f w1 =
           (w1, Raise (HTTPException 413
                         ("File " +:+ name +:+ " is too large (max 50MB)"))) /\
         app.create_note text link tg files w =
           (w1, Raise (HTTPException 413
                         ("File " +:+ name +:+ " is too large (max 50MB)")))) /\
        (size f <= app.MAX_UPLOAD ->
         exists w2 n,
           app.upload_file text tg f w1 =
             (w2, Return (Some (app.mkCreatedNote (id n) "file" (Some name)
                                                  "File uploaded successfully"))) /\
           notes w2 = notes w1 ++ [n] /\
           note_type n = "file" /\ file_name n = Some name /\
           disk w2 !! str (joinpath UPLOAD_DIR
                             (uuid4 (uuid_draws w1) +:+ suffix (Path_of name)))
           = Some (File (app.body f)))) /\
  (Forall within_limit files ->
   exists w' r, app.create_note text link tg files w = (w', Return r)) /\
  (forall g w0, truthy (app.filename g) = false ->
                app.upload_file text tg g w0 = (w0, Return None)).
Proof.
  intros Hu.
  assert (Hat : forall pre f post name,
             files = pre ++ f :: post -> Forall within_limit pre ->
             app.filename f = Some name -> name <> "" ->
             exists w1 created,
               app.upload_files text tg pre [] w = (w1, Return created) /\
               (app.MAX_UPLOAD < size f ->
                app.upload_file text tg f w1 =
                  (w1, Raise (HTTPException 413
                                ("File " +:+ name +:+ " is too large (max 50MB)"))) /\
                app.create_note text link tg files w =
                  (w1, Raise (HTTPException 413
                                ("File " +:+ name +:+ " is too large (max 50MB)"))))).
  { intros pre f post name -> Hpre Hf Hne.
    destruct (upload_files_app text tg pre (f :: post) [] w Hpre)
      as (w1 & created & Hrun & Happ).
    exists w1, created. split; [assumption|]. intros Hbig.
    pose proof (upload_file_too_large text tg f name w1 Hf Hne Hbig) as Hrej.
    split; [assumption|].
    rewrite (create_note_upload _ _ _ _ _ Hu), Happ, upload_files_cons.
    now rewrite Hrej. }
  split; [|split; [|split]].
  - intros f Hin Hnamed Hbig.
    destruct (first_over_limit files f Hin Hnamed Hbig)
      as (pre & g & post & name & Hsplit & Hpre & Hg & Hne & Hgbig).
    destruct (Hat pre g post name Hsplit Hpre Hg Hne) as (w1 & created & _ & Hrej).
    destruct (Hrej Hgbig) as [_ Hrun].
    exists name. now rewrite Hrun.
  - intros pre f post name Hsplit Hpre Hf Hne.
    destruct (Hat pre f post name Hsplit Hpre Hf Hne) as (w1 & created & Hrun & Hrej).
    exists w1, created. split; [assumption|]. split; [assumption|].
    intros Hsmall.
    destruct (upload_file_stored text tg f name w1 Hf Hne Hsmall)
      as (n & Hstore & _ & Hty & Hfn & _).
    eexists _, n. split; [exact Hstore|]. cbn [notes disk].
    repeat split; trivial. apply lookup_insert_eq.
  - intros Hall. rewrite (create_note_upload _ _ _ _ _ Hu).
    destruct (upload_files_all text tg files [] w Hall)
      as (w' & rows & news & -> & _).
    now eexists _, _.
  - intros g w0 Hg. now apply upload_file_nameless.
Qed.

End CreateClaims.

(** ** The claims at concrete requests *)

Lemma oversized_body_size :
  Z.of_nat (List.length oversized_body) = app.MAX_UPLOAD + 1.
Proof.
  unfold oversized_body. rewrite repeat_length. apply Z2Nat.id.
  unfold app.MAX_UPLOAD. lia.
Qed.

Lemma a_txt_within_limit : within_limit a_txt.
Proof. intros _. unfold size, app.MAX_UPLOAD. cbn. lia. Qed.

Lemma big_bin_size : app.MAX_UPLOAD < size big_bin.
Proof.
  unfold size. cbn [app.body big_bin]. rewrite oversized_body_size. lia.
Qed.

(** C1, as stated, fails: the first part has a file name, so the
    request is an upload, yet the named part gets no note because it is
    over the size limit. *)
Lemma oversized_named_file_gets_no_note :
  app.has_upload [big_bin] = true /\
  named [big_bin] = [big_bin] /\
  @app.create_note demo_host None None None [big_bin] fresh_world =
    (fresh_world,
     Raise (HTTPException 413 "File big.bin is too large (max 50MB)")) /\
  notes fresh_world = [].
Proof.
  split; [reflexivity|]. split; [reflexivity|]. split; [|reflexivity].
  rewrite create_note_upload by reflexivity.
  rewrite upload_files_cons.
  rewrite (upload_file_too_large (H:=demo_host) None None big_bin "big.bin"
             fresh_world eq_refl);
    [reflexivity|discriminate|apply big_bin_size].
Qed.

Lemma create_note_classification_witness :
  (exists w' rows r,
     @app.create_note demo_host None (Some "http://example.com") None [a_txt]
                      fresh_world = (w', Return r) /\
     notes w' = notes fresh_world ++ rows /\
     Forall2 (fun f n => note_type n = "file" /\ file_name n = app.filename f)
             (named [a_txt]) rows /\
     Forall2 (fun n c => app.created_id c = id n /\
                         app.created_note_type c = "file" /\
                         app.created_file_name c = file_name n)
             rows (app.create_notes r)) /\
  (exists w' n,
     @app.create_note demo_host (Some "hello") (Some "http://example.com") None []
                      fresh_world =
       (w', Return (app.mkCreateResponse true
                      [app.mkCreatedNote (id n) "link" None
                                         "Link saved successfully"] 1)) /\
     notes w' = notes fresh_world ++ [n] /\ note_type n = "link" /\
     content n = Some "http://example.com") /\
  (exists w' n,
     @app.create_note demo_host (Some "hello") (Some "") None [] fresh_world =
       (w', Return (app.mkCreateResponse true
                      [app.mkCreatedNote (id n) "text" None
                                         "Note saved successfully"] 1)) /\
     notes w' = notes fresh_world ++ [n] /\ note_type n = "text" /\
     content n = Some "hello") /\
  @app.create_note demo_host (Some "") None (Some "tag") [] fresh_world =
    (fresh_world, Raise (HTTPException 400 "No content, link, or files provided")).
Proof.
  split; [|split; [|split]].
  - apply (create_note_classification (H:=demo_host)
             None (Some "http://example.com") None [a_txt] fresh_world).
    + reflexivity.
    + constructor; [apply a_txt_within_limit|constructor].
  - apply (create_note_classification (H:=demo_host)
             (Some "hello") (Some "http://example.com") None [] fresh_world);
      reflexivity.
  - apply (create_note_classification (H:=demo_host)
             (Some "hello") (Some "") None [] fresh_world); reflexivity.
  - apply (create_note_classification (H:=demo_host)
             (Some "") None (Some "tag") [] fresh_world); reflexivity.
Defined.

(** C2, as stated, fails: the second part holds more than 50 MiB, and
    the request is answered with success; having no file name, the part
    is passed over before its size is looked at. *)
Lemma nameless_oversized_part_is_skipped :
  app.has_upload [a_txt; nameless_big] = true /\
  app.MAX_UPLOAD < size nameless_big /\
  snd (@app.create_note demo_host None None None [a_txt; nameless_big]
                        fresh_world) =
    Return (app.mkCreateResponse true
              [app.mkCreatedNote 1 "file" (Some "a.txt")
                                 "File uploaded successfully"] 1).
Proof.
  split; [reflexivity|]. split.
  - unfold size. cbn [app.body nameless_big]. rewrite oversized_body_size. lia.
  - rewrite create_note_upload by reflexivity.
    rewrite upload_files_cons.
    destruct (upload_file_stored (H:=demo_host) None None a_txt "a.txt" fresh_world
                eq_refl) as (n & -> & Hid & _);
      [discriminate|apply a_txt_within_limit; reflexivity|].
    rewrite upload_files_cons.
    rewrite (upload_file_nameless (H:=demo_host) None None nameless_big)
      by reflexivity.
    cbn. rewrite Hid. reflexivity.
Qed.

Lemma oversized_upload_rejected_witness :
  (exists name,
     snd (@app.create_note demo_host None None None [a_txt; big_bin] fresh_world) =
     Raise (HTTPException 413 ("File " +:+ name +:+ " is too large (max 50MB)"))) /\
  (exists w' r,
     @app.create_note demo_host None None None [a_txt; a_txt] fresh_world =
     (w', Return r)).
Proof.
  split.
  - apply (proj1 (oversized_upload_rejected (H:=demo_host) None None None
                    [a_txt; big_bin] fresh_world eq_refl) big_bin).
    + right. now left.
    + reflexivity.
    + apply big_bin_size.
  - apply (proj1 (proj2 (proj2 (oversized_upload_rejected (H:=demo_host)
                                  None None None [a_txt; a_txt] fresh_world
                                  eq_refl)))).
    repeat constructor; apply a_txt_within_limit.
Defined.

(** C3, as stated, fails: the query HELLO finds the note "hello", in
    which HELLO does not occur; LIKE compares ASCII letters without
    regard to case. *)
Lemma uppercase_query_finds_lowercase_note :
  app.get_notes 100 0 (Some "HELLO") one_note =
    (one_note,
     Return (app.mkListResponse true [text_row 1 "hello" "2024-01-01T00:00:00"]
                                1 100 0)) /\
  has_substring "HELLO" (text_row 1 "hello" "2024-01-01T00:00:00") = false.
Proof. split; vm_compute; reflexivity. Qed.


Lemma search_result_witness :
  exists r,
    app.get_notes 100 0 (Some "hello") one_note = (one_note, Return r) /\
    Sorted newer_first (app.list_notes r) /\
    (forall offset',
        app.get_notes 100 offset' (Some "hello") one_note =
        (one_note, Return (app.mkListResponse true (app.list_notes r)
                                              (app.list_total r) 100 offset'))) /\
    (forall n, database.search_where "%hello%" n =
               has_substring_nocase "hello" (as_c_strings n)).
Proof.
  destruct (search_result 100 0 "hello" one_note)
    as (r & rest & Hrun & _ & _ & Hs & _ & _ & _ & Hoff & _ & Hexact).
  - discriminate.
  - exists r. split; [exact Hrun|]. split; [exact Hs|].
    split; [exact Hoff|]. exact (Hexact eq_refl eq_refl).
Defined.

Lemma serve_file_name_too_long_witness :
  @app.serve_file demo_host (tally 255) fresh_world =
    (log_call (Stat ("uploads/" +:+ tally 255)) fresh_world,
     Raise (OSError ("[Errno 36] File name too long: 'uploads/"
                     +:+ tally 255 +:+ "'"))).
Proof.
  destruct (serve_file_name_too_long (H:=demo_host) (tally 255) fresh_world
              eq_refl eq_refl) as [_ Hrun].
  - vm_compute. lia.
  - vm_compute. reflexivity.
  - vm_compute. reflexivity.
  - exact Hrun.
Defined.

Lemma delete_stops_at_stat_failure_witness :
  app.delete_note 1 denied_world =
    (log_call (Stat "uploads/0b5e-a.bin") denied_world,
     Raise (OSError "[Errno 13] Permission denied: 'uploads/0b5e-a.bin'")) /\
  notes (log_call (Stat "uploads/0b5e-a.bin") denied_world) = [pinned_row].
Proof.
  destruct (delete_stops_at_stat_failure
              1 pinned_row "uploads/0b5e-a.bin"
              (OSError "[Errno 13] Permission denied: 'uploads/0b5e-a.bin'")
              denied_world eq_refl eq_refl)
    as (Hrun & _ & Hnotes & _).
  - discriminate.
  - vm_compute. reflexivity.
  - split; [exact Hrun|exact Hnotes].
Defined.

Lemma serve_file_guard_witness :
  @app.serve_file demo_host "../../etc/passwd" fresh_world =
    (fresh_world, Raise (HTTPException 400 "Invalid filename")) /\
  @app.serve_file demo_host "missing.txt" fresh_world =
    (log_call (Stat "uploads/missing.txt") fresh_world,
     Raise (HTTPException 404 "File not found")).
Proof.
  split.
  - apply (proj1 (serve_file_guard (H:=demo_host) "../../etc/passwd" fresh_world)).
    reflexivity.
  - apply (proj1 (proj2 (serve_file_guard (H:=demo_host) "missing.txt"
                                          fresh_world))).
    + reflexivity.
    + vm_compute. reflexivity.
    + vm_compute. reflexivity.
    + right. vm_compute. lia.
Defined.

Lemma delete_note_outcome_witness :
  exists w',
    app.delete_note 1 pinned_world =
      (w', Return (app.mkDeleteResponse true "Note deleted successfully")) /\
    notes w' = [] /\
    stdout w' = ["⚠️ Could not delete file uploads/0b5e-a.bin: "
                 +:+ "[Errno 13] Permission denied: 'uploads/0b5e-a.bin'"] /\
    disk w' = disk pinned_world.
Proof.
  assert (Hid : sqlite_integer 1) by (unfold sqlite_integer; lia).
  destruct (proj2 (proj2 (delete_note_outcome 1 pinned_world Hid))
              pinned_row eq_refl eq_refl)
    as (w' & Hrun & Hnotes & _ & _ & Hswallow).
  exists w'. split; [exact Hrun|]. split; [exact Hnotes|].
  apply (Hswallow "uploads/0b5e-a.bin"
           (OSError "[Errno 13] Permission denied: 'uploads/0b5e-a.bin'")
           (log_call (Unlink "uploads/0b5e-a.bin")
              (log_call (Stat "uploads/0b5e-a.bin") pinned_world))).
  - reflexivity.
  - discriminate.
  - vm_compute. discriminate.
  - vm_compute. reflexivity.
Defined.

(** C6, as stated, fails: with limit -1 and offset 0 all three notes
    come back, while the window from 0 to 0 + (-1) holds no position. *)
Lemma negative_limit_returns_every_row :
  app.get_notes (-1) 0 None three_notes =
    (three_notes,
     Return (app.mkListResponse true
               [text_row 3 "third" "2024-01-01T00:00:02";
                text_row 2 "second" "2024-01-01T00:00:01";
                text_row 1 "first" "2024-01-01T00:00:00"]
               3 (-1) 0)) /\
  (forall k : Z, ~ (0 <= k < 0 + -1)).
Proof. split; [vm_compute; reflexivity|lia]. Qed.

Lemma list_window_witness :
  exists r,
    app.get_notes 1 1 None three_notes = (three_notes, Return r) /\
    app.list_notes r = [text_row 2 "second" "2024-01-01T00:00:01"].
Proof.
  destruct (list_window 1 1 three_notes)
    as (_ & _ & r & Hrun & _ & _ & Hthree).
  exists r. split; [exact Hrun|].
  apply (Hthree eq_refl eq_refl
           (text_row 3 "third" "2024-01-01T00:00:02")
           (text_row 2 "second" "2024-01-01T00:00:01")
           (text_row 1 "first" "2024-01-01T00:00:00")).
  vm_compute. reflexivity.
Defined.

Lemma empty_search_is_no_search_witness :
  app.get_notes 1 1 (Some "") three_notes = app.get_notes 1 1 None three_notes /\
  exists r,
    app.get_notes 1 1 (Some "") three_notes = (three_notes, Return r) /\
    nth_error (app.list_notes r) 0 =
      Some (text_row 2 "second" "2024-01-01T00:00:01") /\
    nth_error (app.list_notes r) 1 = None.
Proof.
  destruct (empty_search_is_no_search 1 1 three_notes)
    as (Hsame & _ & _ & r & Hrun & _ & _ & _ & _ & Hwin).
  split; [exact Hsame|]. exists r. split; [exact Hrun|].
  rewrite !Hwin by lia. split; reflexivity.
Defined.

Lemma text_note_round_trip_witness :
  exists w' i n,
    @app.create_note demo_host (Some "hello") None None [] fresh_world =
      (w', Return (app.mkCreateResponse true
                     [app.mkCreatedNote i "text" None "Note saved successfully"]
                     1)) /\
    app.get_note i w' = (w', Return (app.mkNoteResponse true n)) /\
    id n = i /\ note_type n = "text" /\ content n = Some "hello" /\ tags n = None.
Proof.
  apply (text_note_round_trip (H:=demo_host) "hello" None None [] fresh_world).
  - discriminate.
  - reflexivity.
  - reflexivity.
Defined.

Lemma rowids_never_reused_witness :
  StronglySorted Z.lt
    (@assigned demo_host
       [Insert "text" (Some "a") None None None None; DeleteRow 1;
        Insert "text" (Some "b") None None None None] fresh_world) /\
  ~ In 3 (@assigned demo_host
            [DeleteRow 3; Insert "text" (Some "c") None None None None]
            three_notes).
Proof.
  split.
  - apply (rowids_never_reused (H:=demo_host)
             [Insert "text" (Some "a") None None None None; DeleteRow 1;
              Insert "text" (Some "b") None None None None] fresh_world).
    unfold counter_ok. cbn. lia.
  - assert (Hok : counter_ok three_notes) by (unfold counter_ok; cbn; lia).
    apply (proj2 (proj2 (rowids_never_reused (H:=demo_host)
                           [Insert "text" (Some "c") None None None None]
                           three_notes Hok))
             (text_row 3 "third" "2024-01-01T00:00:02")).
    cbn. tauto.
Defined.

(** ** What the handlers do to the table *)

Section TableSteps.
Context `{Host}.

Lemma table_steps_refl (w : World) : table_steps w w.
Proof. now constructor. Qed.

Lemma table_steps_trans (w w1 w2 : World) :
  table_steps w w1 -> table_steps w1 w2 -> table_steps w w2.
Proof.
  intros H1 H2. induction H2 as [w2 Hn Hs|wa w2 _ IH Hstep].
  - destruct H1 as [w1 Hn1 Hs1|wa w1 Hsteps Hstep].
    + constructor; congruence.
    + apply (steps_more w wa w2 Hsteps).
      destruct Hstep as [row Hok Hid Hrows Hseq|note_id Hrows Hseq].
      * apply (step_insert wa w2 row); trivial; congruence.
      * apply (step_delete wa w2 note_id); congruence.
  - now apply (steps_more w wa w2).
Qed.

Lemma create_note_step (nt : string) (c fn fp mt tg : option string) (w : World) :
  note_ok (mkNote (next_rowid w) nt c fn fp mt tg
                  (utcnow (clock_reads w)) (utcnow (clock_reads w))) ->
  table_steps w (fst (database.create_note nt c fn fp mt tg w)).
Proof.
  intros Hok. rewrite create_note_run. cbn [fst].
  apply (steps_more w w); [apply table_steps_refl|].
  now eapply step_insert; [exact Hok|..].
Qed.

Lemma truthy_pick (a b : option string) (d : string) :
  d <> "" ->
  truthy (if truthy a then a else if truthy b then b else Some d) = true.
Proof.
  intros Hd. destruct (truthy a) eqn:Ha; [assumption|].
  destruct (truthy b) eqn:Hb; [assumption|].
  destruct d; [congruence|reflexivity].
Qed.

Lemma upload_file_steps (text tg : option string) (f : app.UploadFile)
    (w : World) :
  table_steps w (fst (app.upload_file text tg f w)).
Proof.
  unfold app.upload_file.
  destruct (app.filename f) as [[|c name]|]; try apply table_steps_refl.
  destruct (app.MAX_UPLOAD <? Z.of_nat (List.length (app.body f)));
    [apply table_steps_refl|].
  unfold bind, uuid4_str, write_bytes. cbv beta iota.
  match goal with
  | |- context [database.create_note ?nt ?c0 ?fn ?fp ?mt ?tg0 ?w1] =>
      pose proof (create_note_step nt c0 fn fp mt tg0 w1) as Hstep;
      rewrite (create_note_run nt c0 fn fp mt tg0 w1) in *
  end.
  cbn [fst] in *.
  eapply table_steps_trans; [|apply Hstep].
  - now constructor.
  - split; [reflexivity|]. right. cbn.
    split; [reflexivity|]. split; [reflexivity|].
    split; [now apply truthy_pick|]. split; [now eexists|].
    destruct (truthy text) eqn:Ht; [now right|now left].
Qed.

Lemma upload_files_steps (text tg : option string)
    (files : list app.UploadFile) (created : list app.CreatedNote) (w : World) :
  table_steps w (fst (app.upload_files text tg files created w)).
Proof.
  revert created w. induction files as [|f files IH]; intros created w.
  - apply table_steps_refl.
  - rewrite upload_files_cons.
    pose proof (upload_file_steps text tg f w) as Hf.
    destruct (app.upload_file text tg f w) as [w1 [r|e]]; cbn [fst] in Hf.
    + eapply table_steps_trans; [exact Hf|apply IH].
    + exact Hf.
Qed.

Lemma create_note_steps (text link tg : option string)
    (files : list app.UploadFile) (w : World) :
  table_steps w (fst (app.create_note text link tg files w)).
Proof.
  unfold app.create_note, bind.
  destruct (app.has_upload files).
  - pose proof (upload_files_steps text tg files [] w) as Hu.
    now destruct (app.upload_files text tg files [] w) as [w1 [cs|e]].
  - destruct (truthy link) eqn:Hl.
    + pose proof (create_note_step "link" link None None None tg w) as Hs.
      rewrite create_note_run in *. cbn [fst] in *. apply Hs.
      split; [reflexivity|]. left. cbn. auto.
    + destruct (truthy text) eqn:Ht; [|apply table_steps_refl].
      pose proof (create_note_step "text" text None None None tg w) as Hs.
      rewrite create_note_run in *. cbn [fst] in *. apply Hs.
      split; [reflexivity|]. left. cbn. auto.
Qed.

Lemma delete_note_steps (note_id : Z) (w : World) :
  table_steps w (fst (app.delete_note note_id w)).
Proof.
  unfold app.delete_note, bind, database.get_note_by_id.
  destruct (List.find (fun n => id n =? note_id) (notes w)) as [n|];
    [|apply table_steps_refl].
  destruct (remove_blob_notes n w) as [Hn Hs].
  destruct (blob_error n w) as [e|] eqn:He.
  { destruct (remove_blob_raises n e w He) as (stored & _ & _ & _ & ->).
    apply steps_same; reflexivity. }
  destruct (remove_blob_returns n w He) as (w1 & Hr & _).
  rewrite Hr in *. cbn [fst] in *.
  apply (steps_more w w1); [now constructor|].
  apply (step_delete w1 _ note_id).
  - now destruct (database.delete_note note_id w1) as [w2 [[]|e]] eqn:E;
      unfold database.delete_note in E; injection E as <-.
  - now destruct (database.delete_note note_id w1) as [w2 [[]|e]] eqn:E;
      unfold database.delete_note in E; injection E as <-.
Qed.

Lemma handle_steps (r : Request) (w : World) : table_steps w (handle r w).
Proof.
  destruct r as [text link tg files|limit offset search|note_id|note_id
                 |filename|]; cbn [handle].
  - apply create_note_steps.
  - destruct search as [[|c q]|]; apply steps_same; reflexivity.
  - unfold app.get_note, bind, database.get_note_by_id.
    destruct (List.find (fun n => id n =? note_id) (notes w));
      apply steps_same; reflexivity.
  - apply delete_note_steps.
  - destruct (contains ".." filename || contains "/" filename
              || contains "\" filename) eqn:Hguard.
    + unfold app.serve_file. rewrite Hguard. apply table_steps_refl.
    + rewrite (serve_file_accepted _ _ Hguard). cbv zeta.
      destruct (stat_error _ w); [apply steps_same; reflexivity|].
      destruct (disk w !! str (joinpath UPLOAD_DIR filename)) as [[|data|]|];
        apply steps_same; reflexivity.
  - apply steps_same; reflexivity.
Qed.

Lemma serve_steps (requests : list Request) (w : World) :
  table_steps w (serve requests w).
Proof.
  revert w. induction requests as [|r requests IH]; intros w.
  - apply table_steps_refl.
  - cbn [serve fold_left]. eapply table_steps_trans; [apply handle_steps|].
    apply IH.
Qed.

(** A property of the table that every statement keeps is kept by the
    handlers, however many requests are served. *)
Lemma steps_keep (I : World -> Prop) :
  (forall w w', notes w' = notes w -> sqlite_sequence w' = sqlite_sequence w ->
                I w -> I w') ->
  (forall w w', table_step w w' -> I w -> I w') ->
  forall w w', table_steps w w' -> I w -> I w'.
Proof.
  intros Hsame Hstep w w' Hsteps Hw.
  induction Hsteps as [w' Hn Hs|w1 w' _ IH Hone].
  - now apply (Hsame w w').
  - apply (Hstep w1 w' Hone). exact IH.
Qed.

Lemma sorted_snoc (l : list Z) (x : Z) :
  StronglySorted Z.lt l -> Forall (fun y => y < x) l ->
  StronglySorted Z.lt (l ++ [x]).
Proof.
  induction 1 as [|y l Hs IH Hy]; intros Hall; simpl.
  - repeat constructor.
  - inversion Hall as [|? ? Hyx Hall']; subst. constructor; [now apply IH|].
    apply Forall_app. split; [assumption|now constructor].
Qed.

Lemma sorted_filter (f : Note -> bool) (l : list Note) :
  StronglySorted Z.lt (List.map id l) ->
  StronglySorted Z.lt (List.map id (List.filter f l)).
Proof.
  induction l as [|n l IH]; simpl; intros Hs; [constructor|].
  inversion Hs as [|? ? Hs' Hall]; subst.
  destruct (f n); simpl; [|now apply IH].
  constructor; [now apply IH|].
  rewrite Forall_forall in *. intros x Hx. apply Hall.
  apply in_map_iff in Hx as (m & <- & Hm). apply in_map.
  now apply filter_In in Hm as [Hm _].
Qed.

Lemma ids_increasing_step (w w' : World) :
  table_step w w' -> ids_increasing w -> ids_increasing w'.
Proof.
  unfold ids_increasing.
  intros [row Hok Hid Hrows Hseq|note_id Hrows Hseq] Hw; rewrite Hrows.
  - rewrite map_app. cbn [List.map]. apply sorted_snoc; [assumption|].
    apply Forall_forall. intros x Hx.
    apply in_map_iff in Hx as (m & <- & Hm).
    rewrite Hid. now apply next_rowid_fresh.
  - now apply sorted_filter.
Qed.

Lemma counter_ok_step (w w' : World) :
  table_step w w' -> counter_ok w -> counter_ok w'.
Proof.
  unfold counter_ok.
  intros [row Hok Hid Hrows Hseq|note_id Hrows Hseq] Hw; rewrite Hrows, Hseq.
  - rewrite max_rowid_app. cbn [max_rowid fold_right]. rewrite Hid.
    pose proof (max_rowid_nonneg (notes w)). unfold next_rowid. lia.
  - pose proof (max_rowid_filter (fun n => negb (id n =? note_id)) (notes w)).
    lia.
Qed.

Lemma rows_ok_step (w w' : World) :
  table_step w w' -> rows_ok w -> rows_ok w'.
Proof.
  unfold rows_ok.
  intros [row Hok Hid Hrows Hseq|note_id Hrows Hseq] Hw; rewrite Hrows.
  - apply Forall_app. split; [assumption|now constructor].
  - rewrite Forall_forall in *. intros n Hn.
    apply filter_In in Hn as [Hn _]. now apply Hw.
Qed.

End TableSteps.

(** ** Invariants of the table over any sequence of requests *)

Section Reachable.
Context `{Host}.

Lemma sorted_ids_nodup (l : list Z) : StronglySorted Z.lt l -> NoDup l.
Proof.
  induction 1 as [|x l Hs IH Hx]; constructor; [|assumption].
  intros Hin. rewrite Forall_forall in Hx. specialize (Hx x Hin). lia.
Qed.

(** X1. However many requests are served, of whatever kind and with
    whatever outcome, the rows of the table keep strictly increasing
    ids; no two notes ever share an id. *)
Theorem ids_stay_increasing (requests : list Request) (w : World) :
  ids_increasing w ->
  ids_increasing (serve requests w) /\
  NoDup (List.map id (notes (serve requests w))).
Proof.
  intros Hw.
  assert (Hs : ids_increasing (serve requests w)).
  { apply (steps_keep ids_increasing) with (w := w); trivial.
    - unfold ids_increasing. intros w1 w2 Hn _. now rewrite Hn.
    - apply ids_increasing_step.
    - apply serve_steps. }
  split; [exact Hs|]. now apply sorted_ids_nodup.
Qed.

(** X2. However many requests are served, the AUTOINCREMENT counter
    stays at or above every rowid in the table, and it never goes
    down. *)
Theorem counter_stays_ahead (requests : list Request) (w : World) :
  counter_ok w ->
  counter_ok (serve requests w) /\
  sqlite_sequence w <= sqlite_sequence (serve requests w).
Proof.
  intros Hw.
  apply (steps_keep (fun w' => counter_ok w' /\
                               sqlite_sequence w <= sqlite_sequence w'))
    with (w := w).
  - unfold counter_ok. intros w1 w2 Hn Hs. rewrite Hn, Hs. tauto.
  - intros w1 w2 Hstep [Hok Hle]. split; [now apply (counter_ok_step w1)|].
    destruct Hstep as [row _ _ _ Hseq|note_id _ Hseq]; rewrite Hseq; [|lia].
    unfold next_rowid. lia.
  - apply serve_steps.
  - split; [assumption|lia].
Qed.

(** X3. However many requests are served, every row has the shape the
    handlers write: a text or link note has a non-empty content and no
    file columns, a file note has a non-empty file name and MIME type
    and a path under uploads/, and updated_at equals created_at. *)
Theorem rows_keep_shape (requests : list Request) (w : World) :
  rows_ok w -> rows_ok (serve requests w).
Proof.
  intros Hw. apply (steps_keep rows_ok) with (w := w); trivial.
  - unfold rows_ok. intros w1 w2 Hn _. now rewrite Hn.
  - apply rows_ok_step.
  - apply serve_steps.
Qed.

Lemma filter_out_one (note_id : Z) (l : list Note) (n : Note) :
  StronglySorted Z.lt (List.map id l) ->
  List.find (fun m => id m =? note_id) l = Some n ->
  exists before after,
    l = before ++ n :: after /\
    List.filter (fun m => negb (id m =? note_id)) l = before ++ after.
Proof.
  induction l as [|m l IH]; simpl; intros Hs Hf; [discriminate|].
  inversion Hs as [|? ? Hs' Hall]; subst.
  destruct (Z.eqb_spec (id m) note_id) as [E|E].
  - injection Hf as ->. exists [], l. split; [reflexivity|]. simpl.
    apply forallb_filter_id. apply forallb_forall. intros k Hk.
    rewrite Forall_forall in Hall. specialize (Hall (id k) (in_map id l k Hk)).
    apply negb_true_iff, Z.eqb_neq. lia.
  - destruct (IH Hs' Hf) as (before & after & -> & Hfil).
    exists (m :: before), after. split; [reflexivity|].
    simpl. now rewrite Hfil.
Qed.

(** X4. When ids are increasing, deleting an existing note whose blob
    path can be looked up removes exactly that row: the rows before and
    after it stay, in order, and the note count goes down by one. *)
Theorem delete_removes_exactly_one (note_id : Z) (n : Note) (w : World) :
  ids_increasing w ->
  List.find (fun m => id m =? note_id) (notes w) = Some n ->
  blob_error n w = None ->
  exists before after,
    notes w = before ++ n :: after /\
    notes (fst (app.delete_note note_id w)) = before ++ after /\
    snd (database.get_note_count (fst (app.delete_note note_id w))) =
    Return (Z.of_nat (List.length (notes w)) - 1).
Proof.
  intros Hw Hn Hok.
  destruct (filter_out_one note_id (notes w) n Hw Hn)
    as (before & after & Hsplit & Hfil).
  exists before, after. split; [assumption|].
  assert (Hnotes : notes (fst (app.delete_note note_id w)) = before ++ after).
  { unfold app.delete_note, bind, database.get_note_by_id. rewrite Hn.
    destruct (remove_blob_returns n w Hok) as (w1 & -> & Hn1 & _).
    unfold database.delete_note. rewrite Hn1, Hfil.
    now destruct (0 <? _). }
  split; [assumption|].
  unfold database.get_note_count. cbn [snd]. rewrite Hnotes, Hsplit.
  rewrite !length_app. cbn [List.length]. f_equal. lia.
Qed.

End Reachable.

(** ** What a creation request leaves behind *)

Section Created.
Context `{Host}.

Lemma find_by_id (l : list Note) (r : Note) :
  In r l -> (forall m, In m l -> id m = id r -> m = r) ->
  List.find (fun n => id n =? id r) l = Some r.
Proof.
  induction l as [|m l IH]; simpl; intros Hin Huniq; [contradiction|].
  destruct (Z.eqb_spec (id m) (id r)) as [E|E].
  - f_equal. apply Huniq; auto.
  - destruct Hin as [->|Hin]; [congruence|]. apply IH; auto.
Qed.

Lemma same_id_same_row (l : list Note) (a b : Note) :
  NoDup (List.map id l) -> In a l -> In b l -> id a = id b -> a = b.
Proof.
  induction l as [|m l IH]; simpl; intros Hnd Ha Hb E; [contradiction|].
  inversion Hnd as [|? ? Hm Hnd']; subst.
  destruct Ha as [->|Ha], Hb as [->|Hb]; trivial.
  - exfalso. apply Hm. rewrite E. now apply in_map.
  - exfalso. apply Hm. rewrite <- E. now apply in_map.
  - now apply IH.
Qed.

(** The rows an upload loop adds: their ids increase and lie above
    every id of the table it started from; when the loop returns, its
    summaries describe these rows one by one. *)
Lemma upload_files_ids (text tg : option string)
    (files : list app.UploadFile) (created : list app.CreatedNote) (w : World) :
  exists rows,
    notes (fst (app.upload_files text tg files created w)) = notes w ++ rows /\
    StronglySorted Z.lt (List.map id rows) /\
    Forall (fun n => max_rowid (notes w) < id n) rows /\
    (forall cs,
        snd (app.upload_files text tg files created w) = Return cs ->
        exists news, cs = created ++ news /\ Forall2 describes rows news).
Proof.
  revert created w. induction files as [|f files IH]; intros created w.
  - exists []. cbn. rewrite app_nil_r. repeat split; try constructor.
    intros cs [= <-]. exists []. rewrite app_nil_r. split; [reflexivity|constructor].
  - rewrite upload_files_cons.
    destruct (truthy (app.filename f)) eqn:Hnamed.
    + destruct (truthy_named f Hnamed) as (name & Hf & Hne).
      destruct (Z.ltb_spec app.MAX_UPLOAD (size f)) as [Hbig|Hsmall].
      * rewrite (upload_file_too_large text tg f name w Hf Hne Hbig).
        exists []. cbn. rewrite app_nil_r. repeat split; try constructor.
        discriminate.
      * destruct (upload_file_stored text tg f name w Hf Hne Hsmall)
          as (n & -> & Hid & Hty & Hfn & _).
        match goal with
        | |- context [app.upload_files text tg files ?c ?w1] =>
            destruct (IH c w1) as (rows & Hrows & Hsorted & Habove & Hret)
        end.
        cbn [notes] in Hrows, Habove.
        assert (Hn : max_rowid (notes w) < id n)
          by (rewrite Hid; unfold next_rowid; lia).
        assert (Habove' : Forall (fun m => id n < id m /\
                                          max_rowid (notes w) < id m) rows).
        { eapply Forall_impl; [|exact Habove]. cbv beta. intros m Hm.
          rewrite max_rowid_app in Hm. cbn [max_rowid fold_right] in Hm. lia. }
        exists (n :: rows). rewrite Hrows, <- app_assoc.
        split; [reflexivity|]. split; [|split].
        -- cbn [List.map]. constructor; [assumption|].
           apply Forall_forall. intros x Hx.
           apply in_map_iff in Hx as (m & <- & Hm).
           rewrite Forall_forall in Habove'. now apply Habove'.
        -- constructor; [assumption|].
           eapply Forall_impl; [|exact Habove']. cbv beta. tauto.
        -- intros cs Hcs. destruct (Hret cs Hcs) as (news & -> & Hdesc).
           eexists (_ :: news). rewrite <- app_assoc. split; [reflexivity|].
           constructor; [|assumption].
           unfold describes. cbn. now rewrite Hty, Hfn.
    + rewrite (upload_file_nameless text tg f w Hnamed). apply IH.
Qed.

Lemma get_note_inserted (w w' : World) (row : Note) :
  notes w' = notes w ++ [row] -> id row = next_rowid w ->
  app.get_note (id row) w' = (w', Return (app.mkNoteResponse true row)).
Proof.
  intros Hn Hid. unfold app.get_note, bind, database.get_note_by_id.
  rewrite Hn, (find_inserted (notes w) row); [reflexivity|].
  intros m Hm. apply next_rowid_fresh in Hm. lia.
Qed.

(** X5. Every id a successful creation reports can be fetched right
    away, and the note fetched has the reported id, type and file
    name; this holds for text, link and multi-file requests alike. *)
Theorem created_notes_can_be_fetched (text link tg : option string)
    (files : list app.UploadFile) (w w' : World) (r : app.CreateResponse) :
  app.create_note text link tg files w = (w', Return r) ->
  Forall (fun c =>
            exists n,
              app.get_note (app.created_id c) w' =
                (w', Return (app.mkNoteResponse true n)) /\
              describes n c)
         (app.create_notes r).
Proof.
  intros Hrun.
  assert (Hfetch : forall n,
             In n (notes w') ->
             (forall m, In m (notes w') -> id m = id n -> m = n) ->
             app.get_note (id n) w' = (w', Return (app.mkNoteResponse true n))).
  { intros n Hin Huniq. unfold app.get_note, bind, database.get_note_by_id.
    now rewrite (find_by_id _ _ Hin Huniq). }
  destruct (app.has_upload files) eqn:Hu.
  - rewrite (create_note_upload _ _ _ _ _ Hu) in Hrun.
    destruct (upload_files_ids text tg files [] w)
      as (rows & Hrows & Hsorted & Habove & Hret).
    destruct (app.upload_files text tg files [] w) as [w1 [cs|e]];
      [|discriminate].
    injection Hrun as <- <-. cbn [fst snd app.create_notes] in *.
    destruct (Hret cs eq_refl) as (news & -> & Hdesc).
    cbn [List.app].
    assert (Hall : forall n c, In n rows -> describes n c ->
               exists n0, app.get_note (app.created_id c) w1 =
                            (w1, Return (app.mkNoteResponse true n0)) /\
                          describes n0 c).
    { intros n c Hn Hd. exists n. split; [|assumption].
      destruct Hd as (-> & _). apply Hfetch.
      - rewrite Hrows. apply in_or_app. now right.
      - intros m Hm E. rewrite Hrows in Hm. apply in_app_or in Hm as [Hm|Hm].
        + exfalso. apply max_rowid_ge in Hm.
          rewrite Forall_forall in Habove. specialize (Habove n Hn). lia.
        + apply (same_id_same_row rows); trivial.
          now apply sorted_ids_nodup. }
    clear Hret Hsorted Habove Hrows.
    induction Hdesc as [|n c rows news Hd Hdesc IH]; constructor.
    + apply (Hall n c); [now left|assumption].
    + apply IH. intros n0 c0 Hn0. apply Hall. now right.
  - clear Hfetch. unfold app.create_note, bind in Hrun. rewrite Hu in Hrun.
    destruct (truthy link) eqn:Hl.
    + rewrite create_note_run in Hrun. injection Hrun as <- <-.
      cbn [app.create_notes]. constructor; [|constructor].
      set (row := mkNote (next_rowid w) "link" link None None None tg
                         (utcnow (clock_reads w)) (utcnow (clock_reads w))).
      exists row. split; [|repeat split].
      match goal with
      | |- app.get_note _ ?w1 = _ =>
          exact (get_note_inserted w w1 row eq_refl eq_refl)
      end.
    + destruct (truthy text) eqn:Ht; [|discriminate].
      rewrite create_note_run in Hrun. injection Hrun as <- <-.
      cbn [app.create_notes]. constructor; [|constructor].
      set (row := mkNote (next_rowid w) "text" text None None None tg
                         (utcnow (clock_reads w)) (utcnow (clock_reads w))).
      exists row. split; [|repeat split].
      match goal with
      | |- app.get_note _ ?w1 = _ =>
          exact (get_note_inserted w w1 row eq_refl eq_refl)
      end.
Qed.

(** X6. The count of a successful creation is the number of summaries
    it returns and the number of rows it added, so the note count of
    the health check rises by exactly that count. *)
Theorem create_count_matches (text link tg : option string)
    (files : list app.UploadFile) (w w' : World) (r : app.CreateResponse) :
  app.create_note text link tg files w = (w', Return r) ->
  app.create_count r = Z.of_nat (List.length (app.create_notes r)) /\
  Z.of_nat (List.length (notes w')) =
    Z.of_nat (List.length (notes w)) + app.create_count r /\
  exists timestamp,
    snd (app.health_check w') =
    Return (app.mkHealthResponse
              "healthy" timestamp
              (Z.of_nat (List.length (notes w)) + app.create_count r)).
Proof.
  intros Hrun.
  assert (Hlen : app.create_count r = Z.of_nat (List.length (app.create_notes r)) /\
                 Z.of_nat (List.length (notes w')) =
                 Z.of_nat (List.length (notes w)) + app.create_count r).
  { destruct (app.has_upload files) eqn:Hu.
    - rewrite (create_note_upload _ _ _ _ _ Hu) in Hrun.
      destruct (upload_files_ids text tg files [] w)
        as (rows & Hrows & _ & _ & Hret).
      destruct (app.upload_files text tg files [] w) as [w1 [cs|e]];
        [|discriminate].
      injection Hrun as <- <-. cbn [fst snd] in *.
      destruct (Hret cs eq_refl) as (news & -> & Hdesc).
      cbn [List.app app.create_count app.create_notes].
      split; [reflexivity|].
      rewrite Hrows, length_app, (Forall2_length Hdesc). lia.
    - unfold app.create_note, bind in Hrun. rewrite Hu in Hrun.
      destruct (truthy link) eqn:Hl;
        [|destruct (truthy text) eqn:Ht; [|discriminate]];
        rewrite create_note_run in Hrun; injection Hrun as <- <-;
        cbn [app.create_count app.create_notes notes List.length];
        (split; [reflexivity|]); rewrite length_app; cbn [List.length]; lia. }
  split; [apply Hlen|]. split; [apply Hlen|].
  eexists. unfold app.health_check, bind, database.get_note_count,
    utcnow_isoformat, ret. cbn [snd notes].
  destruct Hlen as [_ ->]. reflexivity.
Qed.

(** X7. A multi-file upload is not all-or-nothing: when a named part is
    over the limit, the answer is 413, and the table still has gained
    one file note for every named part before it. *)
Theorem failed_upload_keeps_earlier_files (text link tg : option string)
    (pre post : list app.UploadFile) (f : app.UploadFile) (name : string)
    (w : World) :
  app.has_upload (pre ++ f :: post) = true ->
  Forall within_limit pre ->
  app.filename f = Some name -> name <> "" -> app.MAX_UPLOAD < size f ->
  exists w1 rows,
    app.create_note text link tg (pre ++ f :: post) w =
      (w1, Raise (HTTPException 413
                    ("File " +:+ name +:+ " is too large (max 50MB)"))) /\
    notes w1 = notes w ++ rows /\
    Forall2 (fun g n => note_type n = "file" /\ file_name n = app.filename g)
            (named pre) rows /\
    List.length rows = List.length (named pre).
Proof.
  intros Hu Hpre Hf Hne Hbig.
  destruct (upload_files_all text tg pre [] w Hpre)
    as (w1 & rows & news & Hrun & Hrows & Hr & _).
  destruct (upload_files_app text tg pre (f :: post) [] w Hpre)
    as (w1' & created & Hrun' & Happ).
  rewrite Hrun in Hrun'. injection Hrun' as <- <-.
  exists w1, rows. split; [|split; [assumption|split; [assumption|]]].
  - rewrite (create_note_upload _ _ _ _ _ Hu), Happ, upload_files_cons.
    now rewrite (upload_file_too_large text tg f name w1 Hf Hne Hbig).
  - symmetry. apply (Forall2_length Hr).
Qed.

End Created.

(** ** Blobs: written by an upload, read by a download, removed by a delete *)

Section Blobs.
Context `{Host}.

Lemma remove_blob_file (n : Note) (stored : string) (w : World) :
  file_path n = Some stored -> stored <> "" ->
  app.remove_blob n w =
  let p := str (Path_of stored) in
  match stat_error p w with
  | Some e => (log_call (Stat p) w, Raise e)
  | None =>
      match disk w !! p with
      | None => (log_call (Stat p) w, Return tt)
      | Some _ =>
          try_except (unlink p) (fun e => print (app.unlink_warning p e))
                     (log_call (Stat p) w)
      end
  end.
Proof.
  intros Hfp Hne. unfold app.remove_blob. rewrite Hfp.
  destruct stored as [|c stored]; [congruence|].
  unfold bind, path_exists. cbv zeta.
  destruct (stat_error (str (Path_of (String c stored))) w); [reflexivity|].
  now destruct (disk w !! str (Path_of (String c stored))).
Qed.

Lemma unlink_file (p : string) (data : list byte) (w : World) :
  disk w !! p = Some (File data) -> p ∉ undeletable w ->
  unlink p w = (set_disk (delete p (disk w)) (log_call (Unlink p) w), Return tt).
Proof.
  intros Hp Hfree. unfold unlink. rewrite Hp.
  now destruct (decide (p ∈ undeletable w)).
Qed.

(** Apart from the table, a delete leaves the world as removing the
    blob left it. *)
Lemma delete_note_rest (note_id : Z) (n : Note) (w : World) :
  List.find (fun m => id m =? note_id) (notes w) = Some n ->
  disk (fst (app.delete_note note_id w)) = disk (fst (app.remove_blob n w)) /\
  stdout (fst (app.delete_note note_id w)) = stdout (fst (app.remove_blob n w)) /\
  fs_calls (fst (app.delete_note note_id w)) =
    fs_calls (fst (app.remove_blob n w)).
Proof.
  intros Hn. unfold app.delete_note, bind, database.get_note_by_id. rewrite Hn.
  destruct (app.remove_blob n w) as [w1 [[]|e]]; [|now repeat split].
  unfold database.delete_note. now destruct (0 <? _).
Qed.

(** X8. Deleting a file note removes its blob from the disk when the
    blob is there and can be unlinked, with nothing printed; when the
    blob is already missing the disk is only looked at; and for a note
    without a file path the file system is not touched at all. *)
Theorem delete_removes_blob (note_id : Z) (n : Note) (w : World) :
  List.find (fun m => id m =? note_id) (notes w) = Some n ->
  (forall stored data,
      file_path n = Some stored -> stored <> "" ->
      disk w !! str (Path_of stored) = Some (File data) ->
      str (Path_of stored) ∉ undeletable w ->
      disk (fst (app.delete_note note_id w)) =
        delete (str (Path_of stored)) (disk w) /\
      stdout (fst (app.delete_note note_id w)) = stdout w /\
      fs_calls (fst (app.delete_note note_id w)) =
        fs_calls w ++ [Stat (str (Path_of stored)); Unlink (str (Path_of stored))]) /\
  (forall stored,
      file_path n = Some stored -> stored <> "" ->
      disk w !! str (Path_of stored) = None ->
      disk (fst (app.delete_note note_id w)) = disk w /\
      stdout (fst (app.delete_note note_id w)) = stdout w /\
      fs_calls (fst (app.delete_note note_id w)) =
        fs_calls w ++ [Stat (str (Path_of stored))]) /\
  (truthy (file_path n) = false ->
   disk (fst (app.delete_note note_id w)) = disk w /\
   stdout (fst (app.delete_note note_id w)) = stdout w /\
   fs_calls (fst (app.delete_note note_id w)) = fs_calls w).
Proof.
  intros Hn. destruct (delete_note_rest note_id n w Hn) as (-> & -> & ->).
  split; [|split].
  - intros stored data Hfp Hne Hp Hfree.
    rewrite (remove_blob_file n stored w Hfp Hne). cbv zeta.
    rewrite (stat_error_present _ _ _ Hp), Hp by discriminate.
    unfold try_except.
    rewrite (unlink_file _ data (log_call (Stat (str (Path_of stored))) w));
      trivial.
    cbn [fst disk stdout fs_calls set_disk log_call].
    now rewrite <- app_assoc.
  - intros stored Hfp Hne Hp.
    rewrite (remove_blob_file n stored w Hfp Hne). cbv zeta. rewrite Hp.
    destruct (stat_error (str (Path_of stored)) w); repeat split.
  - intros Hfalse. unfold app.remove_blob.
    destruct (file_path n) as [[|c stored]|]; try discriminate; repeat split.
Qed.

(** X9. After a single-file upload, asking for the stored name returns
    exactly the uploaded bytes, provided the stored name (uuid plus
    extension) passes the guard of [serve_file]. *)
Theorem upload_then_serve (text link tg : option string) (f : app.UploadFile)
    (name : string) (w : World) :
  app.filename f = Some name -> name <> "" -> size f <= app.MAX_UPLOAD ->
  contains ".." (uuid4 (uuid_draws w) +:+ suffix (Path_of name))
  || contains "/" (uuid4 (uuid_draws w) +:+ suffix (Path_of name))
  || contains "\" (uuid4 (uuid_draws w) +:+ suffix (Path_of name)) = false ->
  exists w' r n w'' resp,
    app.create_note text link tg [f] w = (w', Return r) /\
    notes w' = notes w ++ [n] /\
    file_path n =
      Some ("uploads/" +:+ uuid4 (uuid_draws w) +:+ suffix (Path_of name)) /\
    app.serve_file (uuid4 (uuid_draws w) +:+ suffix (Path_of name)) w' =
      (w'', Return resp) /\
    app.response_body resp = app.body f /\
    app.response_filename resp =
      uuid4 (uuid_draws w) +:+ suffix (Path_of name).
Proof.
  intros Hf Hne Hsmall Hguard.
  assert (Hu : app.has_upload [f] = true).
  { cbn [app.has_upload]. rewrite Hf. destruct name; [congruence|reflexivity]. }
  rewrite (create_note_upload _ _ _ _ _ Hu), upload_files_cons.
  destruct (upload_file_stored text tg f name w Hf Hne Hsmall)
    as (n & -> & _ & _ & _ & Hfp & _).
  cbn [app.upload_files ret].
  eexists _, _, n, _, _. split; [reflexivity|]. split; [reflexivity|].
  split; [exact Hfp|].
  rewrite (serve_file_accepted _ _ Hguard). cbv zeta.
  rewrite (stat_error_present _ (File (app.body f)))
    by (try discriminate; cbn [disk]; apply lookup_insert_eq).
  cbn [disk]. rewrite lookup_insert_eq. repeat split.
Qed.

Lemma stored_path (unique_filename : string) :
  contains "/" unique_filename = false ->
  String.eqb unique_filename "" || String.eqb unique_filename "." = false ->
  str (Path_of ("uploads/" +:+ unique_filename)) = "uploads/" +:+ unique_filename /\
  str (joinpath UPLOAD_DIR unique_filename) = "uploads/" +:+ unique_filename.
Proof.
  intros Hs E. split.
  - unfold Path_of.
    change ("uploads/" +:+ unique_filename)
      with (String "u" (String "p" (String "l" (String "o" (String "a"
             (String "d" (String "s" (String "/" unique_filename)))))))).
    cbn [String.prefix split_slash Ascii.eqb Bool.eqb].
    rewrite (no_slash_split _ Hs).
    cbn [List.filter String.eqb Ascii.eqb Bool.eqb negb orb andb].
    now rewrite E.
  - rewrite (accepted_path _ Hs). now rewrite E.
Qed.

Lemma filter_out_inserted (l : list Note) (row : Note) :
  (forall m, In m l -> id m < id row) ->
  List.filter (fun m => negb (id m =? id row)) (l ++ [row]) = l.
Proof.
  intros Hfresh. rewrite filter_app. cbn [List.filter].
  rewrite Z.eqb_refl. cbn [negb]. rewrite app_nil_r.
  apply forallb_filter_id, forallb_forall. intros m Hm.
  apply negb_true_iff, Z.eqb_neq. specialize (Hfresh m Hm). lia.
Qed.

(** X10. Uploading one file and then deleting the note that was
    reported puts the table and the disk back as they were; only the
    rowid counter keeps the id that was used.  The stored name has to
    be a plain entry of uploads/ that is neither on disk before nor
    protected from unlinking. *)
Theorem upload_then_delete_restores (text link tg : option string)
    (f : app.UploadFile) (name : string) (w : World) :
  app.filename f = Some name -> name <> "" -> size f <= app.MAX_UPLOAD ->
  let unique_filename := uuid4 (uuid_draws w) +:+ suffix (Path_of name) in
  contains "/" unique_filename = false ->
  String.eqb unique_filename "" || String.eqb unique_filename "." = false ->
  disk w !! ("uploads/" +:+ unique_filename) = None ->
  "uploads/" +:+ unique_filename ∉ undeletable w ->
  exists w' r i w'',
    app.create_note text link tg [f] w = (w', Return r) /\
    List.map app.created_id (app.create_notes r) = [i] /\
    app.delete_note i w' =
      (w'', Return (app.mkDeleteResponse true "Note deleted successfully")) /\
    notes w'' = notes w /\ disk w'' = disk w /\ sqlite_sequence w'' = i.
Proof.
  intros Hf Hne Hsmall unique_filename Hs E Hfresh Hfree.
  destruct (stored_path unique_filename Hs E) as [Hstored Hjoin].
  assert (Hu : app.has_upload [f] = true).
  { cbn [app.has_upload]. rewrite Hf. destruct name; [congruence|reflexivity]. }
  rewrite (create_note_upload _ _ _ _ _ Hu), upload_files_cons.
  destruct (upload_file_stored text tg f name w Hf Hne Hsmall)
    as (n & -> & Hid & _ & _ & Hfp & _).
  fold unique_filename in Hfp |- *. rewrite Hjoin.
  cbn [app.upload_files ret].
  set (p := "uploads/" +:+ unique_filename) in *.
  set (w' := mkWorld (notes w ++ [n]) (next_rowid w)
                     (<[p := File (app.body f)]> (disk w)) (undeletable w)
                     (stdout w) (fs_calls w ++ [OpenWrite p])
                     (S (clock_reads w)) (S (uuid_draws w))).
  assert (Hfind : List.find (fun m => id m =? id n) (notes w') = Some n).
  { apply find_inserted. intros m Hm. apply next_rowid_fresh in Hm. lia. }
  assert (Hpne : p <> "") by discriminate.
  assert (Hblob : app.remove_blob n w' =
                  (set_disk (delete p (disk w'))
                            (log_call (Unlink p) (log_call (Stat p) w')),
                   Return tt)).
  { rewrite (remove_blob_file n p w' Hfp Hpne). cbv zeta. rewrite Hstored.
    rewrite (stat_error_present p (File (app.body f)) w')
      by (try discriminate; cbn [disk w']; apply lookup_insert_eq).
    cbn [disk w']. rewrite lookup_insert_eq. unfold try_except.
    now rewrite (unlink_file p (app.body f) (log_call (Stat p) w'));
      [|cbn [disk log_call w']; apply lookup_insert_eq|exact Hfree]. }
  eexists w', _, (id n), _. split; [reflexivity|]. split; [reflexivity|].
  split.
  - unfold app.delete_note, bind, database.get_note_by_id.
    rewrite Hfind, Hblob. unfold database.delete_note.
    cbn [notes set_disk log_call w'].
    rewrite filter_out_inserted
      by (intros m Hm; apply next_rowid_fresh in Hm; lia).
    rewrite length_app. cbn [List.length].
    destruct (Z.ltb_spec 0
                (Z.of_nat (List.length (notes w) + 1) -
                 Z.of_nat (List.length (notes w)))) as [_|?]; [|lia].
    reflexivity.
  - cbn [notes disk sqlite_sequence w'].
    split; [reflexivity|]. split; [|now rewrite Hid].
    now apply delete_insert_id.
Qed.

End Blobs.

(** ** Paging and searching *)

Section Paging.
Context `{Host}.

Lemma firstn_plus {A : Type} (a b : nat) (l : list A) :
  firstn (a + b) l = firstn a l ++ firstn b (skipn a l).
Proof.
  revert l. induction a as [|a IH]; intros l; [reflexivity|].
  destruct l as [|x l]; simpl.
  - now rewrite firstn_nil.
  - now rewrite IH.
Qed.

Lemma skipn_plus {A : Type} (a b : nat) (l : list A) :
  skipn (a + b) l = skipn b (skipn a l).
Proof.
  revert l. induction a as [|a IH]; intros l; [reflexivity|].
  destruct l as [|x l]; simpl; [now rewrite skipn_nil|apply IH].
Qed.

Lemma limit_offset_pages {A : Type} (limit offset : Z) (l : list A) :
  0 <= limit -> 0 <= offset ->
  limit_offset (2 * limit) offset l =
  limit_offset limit offset l ++ limit_offset limit (offset + limit) l.
Proof.
  intros Hl Ho. unfold limit_offset.
  destruct (Z.ltb_spec (2 * limit) 0) as [?|_]; [lia|].
  destruct (Z.ltb_spec limit 0) as [?|_]; [lia|].
  replace (Z.to_nat (2 * limit)) with (Z.to_nat limit + Z.to_nat limit)%nat by lia.
  replace (Z.to_nat (offset + limit)) with (Z.to_nat offset + Z.to_nat limit)%nat
    by lia.
  now rewrite firstn_plus, skipn_plus.
Qed.

Lemma nodup_window {A : Type} (limit offset : Z) (l : list A) :
  NoDup l -> NoDup (limit_offset limit offset l).
Proof.
  intros Hl. unfold limit_offset.
  assert (Hs : NoDup (skipn (Z.to_nat offset) l)).
  { rewrite <- (firstn_skipn (Z.to_nat offset) l) in Hl.
    now apply NoDup_app_remove_l in Hl. }
  destruct (limit <? 0); [assumption|].
  rewrite <- (firstn_skipn (Z.to_nat limit) (skipn (Z.to_nat offset) l)) in Hs.
  now apply NoDup_app_remove_r in Hs.
Qed.

Lemma limit_offset_map {A B : Type} (f : A -> B) (limit offset : Z)
    (l : list A) :
  List.map f (limit_offset limit offset l) = limit_offset limit offset (List.map f l).
Proof.
  unfold limit_offset.
  destruct (limit <? 0); now rewrite ?skipn_map, ?firstn_map.
Qed.

(** X11. Without a search query, two consecutive pages of the same
    size, read from the same table, are together the page of twice the
    size: no note between them is skipped, and when ids are increasing
    no note is on both. *)
Theorem consecutive_pages (limit offset : Z) (w : World) :
  0 <= limit -> 0 <= offset ->
  exists first second both,
    app.get_notes limit offset None w = (w, Return first) /\
    app.get_notes limit (offset + limit) None w = (w, Return second) /\
    app.get_notes (2 * limit) offset None w = (w, Return both) /\
    app.list_notes both = app.list_notes first ++ app.list_notes second /\
    (ids_increasing w ->
     NoDup (List.map id (app.list_notes first ++ app.list_notes second))).
Proof.
  intros Hl Ho. eexists _, _, _.
  split; [reflexivity|]. split; [reflexivity|]. split; [reflexivity|].
  cbn [app.list_notes]. split; [now apply limit_offset_pages|].
  intros Hw. rewrite <- limit_offset_pages by assumption.
  rewrite limit_offset_map. apply nodup_window.
  apply (Permutation_NoDup
           (Permutation_map id (Permutation_sym (order_by_perm (notes w))))).
  now apply sorted_ids_nodup.
Qed.

(** X12. A listing without a search query (none, or the empty string)
    whose page starts at or after the end of the table is empty, and
    so is every listing of limit 0, with a search query or without;
    the total is the full count all the same. *)
Theorem page_beyond_the_end (limit offset : Z) (search : option string)
    (w : World) :
  (truthy search = false /\ Z.of_nat (List.length (notes w)) <= offset)
  \/ limit = 0 ->
  app.get_notes limit offset search w =
  (w, Return (app.mkListResponse true [] (Z.of_nat (List.length (notes w)))
                                 limit offset)).
Proof.
  intros Hend.
  assert (Hempty : truthy search = false ->
                   limit_offset limit offset
                     (order_by_created_at_desc (notes w)) = []).
  { intros Hs. unfold limit_offset. destruct Hend as [[_ Hend]| ->].
    - rewrite skipn_all2 by (rewrite order_by_length; lia).
      destruct (limit <? 0); [reflexivity|apply firstn_nil].
    - reflexivity. }
  destruct search as [[|c query]|];
    unfold app.get_notes, bind, database.get_all_notes, database.search_notes,
      database.get_note_count, ret; cbv iota.
  - now rewrite (Hempty eq_refl).
  - destruct Hend as [[Hs _]| ->]; [discriminate|reflexivity].
  - now rewrite (Hempty eq_refl).
Qed.

Lemma lower_facts (c : ascii) :
  lower (lower c) = lower c /\
  Ascii.eqb (lower c) "%" = Ascii.eqb c "%" /\
  Ascii.eqb (lower c) "_" = Ascii.eqb c "_".
Proof.
  destruct c as [[] [] [] [] [] [] [] []]; vm_compute; repeat split.
Qed.

Lemma chars_like_fold_pattern (p s : string) : like_chars (fold_case p) s = like_chars p s.
Proof.
  revert s. induction p as [|c p IH]; intros s; [reflexivity|].
  destruct (lower_facts c) as (Hll & Hpc & Hus).
  cbn [fold_case].
  destruct (Ascii.eqb c "%") eqn:E.
  - apply Ascii.eqb_eq in E as ->.
    change (lower "%") with "%"%char.
    induction s as [|d s IHs]; rewrite (chars_like_percent (fold_case p)), (chars_like_percent p).
    + now rewrite IH.
    + now rewrite IH, IHs.
  - rewrite (chars_like_other (lower c)) by (now rewrite Hpc).
    rewrite (chars_like_other c) by assumption.
    destruct s as [|d s]; [reflexivity|].
    now rewrite Hus, Hll, IH.
Qed.

Lemma chars_like_fold_text (p s : string) : like_chars p (fold_case s) = like_chars p s.
Proof.
  revert s. induction p as [|c p IH]; intros s.
  - now destruct s.
  - destruct (Ascii.eqb c "%") eqn:E.
    + apply Ascii.eqb_eq in E as ->.
      induction s as [|d s IHs]; [reflexivity|].
      cbn [fold_case].
      rewrite (chars_like_percent p (String (lower d) (fold_case s))),
        (chars_like_percent p (String d s)), IHs.
      f_equal. apply (IH (String d s)).
    + rewrite !(chars_like_other c) by assumption.
      destruct s as [|d s]; [reflexivity|]. cbn [fold_case].
      destruct (lower_facts d) as (-> & _). now rewrite IH.
Qed.

Lemma like_fold_pattern (p s : string) : like (fold_case p) s = like p s.
Proof. unfold like. rewrite c_str_fold. apply chars_like_fold_pattern. Qed.

Lemma like_fold_text (p s : string) : like p (fold_case s) = like p s.
Proof. unfold like. rewrite c_str_fold. apply chars_like_fold_text. Qed.

(** X20. The search reads the query and the three columns up to their
    first NUL character, as LIKE does: what follows a NUL in a column
    cannot be found, and a query with a NUL is cut there together with
    the closing [%] of the pattern, so that the part before the NUL has
    to stand at the end of a column. *)
Theorem search_stops_at_nul (before after : string) (n : Note) :
  has_nul before = false ->
  (forall search_pattern,
      database.search_where search_pattern n =
      database.search_where search_pattern (as_c_strings n)) /\
  database.search_where
    ("%" +:+ (before +:+ String Ascii.zero after) +:+ "%") n =
  database.search_where ("%" +:+ before) n.
Proof.
  intros Hn. split.
  - intros search_pattern. unfold database.search_where, as_c_strings.
    cbn [content tags file_name].
    destruct (content n), (tags n), (file_name n);
      cbn [column_like option_map]; now rewrite ?like_c_str.
  - assert (Hcut : forall s,
               like ("%" +:+ (before +:+ String Ascii.zero after) +:+ "%") s =
               like ("%" +:+ before) s).
    { intros s. unfold like.
      rewrite (c_str_app "%" _ eq_refl), (c_str_app "%" before eq_refl).
      now rewrite (c_str_cut before after "%" Hn), (c_str_clean before Hn). }
    unfold database.search_where.
    destruct (content n), (tags n), (file_name n);
      cbn [column_like]; now rewrite ?Hcut.
Qed.

Lemma fold_case_app (a b : string) :
  fold_case (a +:+ b) = fold_case a +:+ fold_case b.
Proof. induction a as [|c a IH]; simpl; [reflexivity|now rewrite IH]. Qed.

(** X13. Searching ignores ASCII letter case on both sides: a query
    and its lower-case form give the same response, and a row matches
    a query exactly when its lower-cased columns do. *)
Theorem search_ignores_case (limit offset : Z) (query : string) (w : World) :
  query <> "" ->
  app.get_notes limit offset (Some (fold_case query)) w =
  app.get_notes limit offset (Some query) w /\
  (forall n,
      database.search_where ("%" +:+ query +:+ "%") n =
      (column_like ("%" +:+ query +:+ "%") (option_map fold_case (content n))
       || column_like ("%" +:+ query +:+ "%") (option_map fold_case (tags n))
       || column_like ("%" +:+ query +:+ "%")
                      (option_map fold_case (file_name n)))).
Proof.
  intros Hq. split.
  - destruct query as [|c query]; [congruence|].
    cbn [fold_case]. unfold app.get_notes. cbv iota.
    unfold database.search_notes. cbv zeta.
    change (String (lower c) (fold_case query)) with (fold_case (String c query)).
    assert (Hw : forall n,
               database.search_where ("%" +:+ fold_case (String c query) +:+ "%") n =
               database.search_where ("%" +:+ String c query +:+ "%") n).
    { intros n. unfold database.search_where, column_like.
      change ("%" +:+ fold_case (String c query) +:+ "%")
        with (fold_case "%" +:+ fold_case (String c query) +:+ fold_case "%").
      rewrite <- !fold_case_app.
      destruct (content n), (tags n), (file_name n);
        now rewrite ?like_fold_pattern. }
    unfold bind. cbv beta. now rewrite (filter_ext _ _ Hw).
  - intros n. unfold database.search_where, column_like.
    destruct (content n), (tags n), (file_name n); cbn [option_map];
      now rewrite ?like_fold_text.
Qed.

End Paging.

(** ** The icon drawing *)

(** X14. For every size of at least 8 pixels the drawing is the notepad
    followed by three bars: the notepad lies inside the image with a
    margin on every side, each bar lies inside the notepad, and the
    bars follow one another from top to bottom without touching. *)
Theorem icon_bars_inside_notepad (size : Z) (output_path : string) :
  8 <= size ->
  exists notepad bar0 bar1 bar2,
    generate_icons.drawn (generate_icons.create_icon size output_path) =
      [notepad; bar0; bar1; bar2] /\
    0 < generate_icons.x0 notepad <= generate_icons.x1 notepad /\
    generate_icons.x1 notepad < size /\
    0 < generate_icons.y0 notepad <= generate_icons.y1 notepad /\
    generate_icons.y1 notepad < size /\
    Forall (fun bar =>
              generate_icons.x0 notepad <= generate_icons.x0 bar /\
              generate_icons.x0 bar <= generate_icons.x1 bar /\
              generate_icons.x1 bar <= generate_icons.x1 notepad /\
              generate_icons.y0 notepad <= generate_icons.y0 bar /\
              generate_icons.y0 bar <= generate_icons.y1 bar /\
              generate_icons.y1 bar <= generate_icons.y1 notepad)
           [bar0; bar1; bar2] /\
    generate_icons.y1 bar0 < generate_icons.y0 bar1 /\
    generate_icons.y1 bar1 < generate_icons.y0 bar2.
Proof.
  intros Hsize. unfold generate_icons.create_icon.
  eexists _, _, _, _. split; [reflexivity|].
  cbn [generate_icons.x0 generate_icons.x1 generate_icons.y0 generate_icons.y1].
  assert (H8 : 1 <= size / 8) by (apply Z.div_le_lower_bound; lia).
  assert (H8' : 8 * (size / 8) <= size) by (apply Z.mul_div_le; lia).
  assert (H30 : 0 <= size / 30) by (apply Z.div_pos; lia).
  assert (H30' : 30 * (size / 30) <= size) by (apply Z.mul_div_le; lia).
  assert (Hgap : size / 30 < size / 8).
  { pose proof (Z.div_mod size 8 ltac:(lia)).
    pose proof (Z.mod_pos_bound size 8 ltac:(lia)). lia. }
  repeat split; try lia.
  repeat (constructor;
          [cbn [generate_icons.x0 generate_icons.x1
                generate_icons.y0 generate_icons.y1]; lia|]).
  constructor.
Qed.

(** ** The further properties at concrete requests *)

Lemma ids_stay_increasing_witness :
  ids_increasing (@serve demo_host demo_requests fresh_world) /\
  NoDup (List.map id (notes (@serve demo_host demo_requests fresh_world))).
Proof.
  apply (ids_stay_increasing (H:=demo_host) demo_requests fresh_world).
  unfold ids_increasing. cbn. constructor.
Defined.

Lemma counter_stays_ahead_witness :
  counter_ok (@serve demo_host demo_requests fresh_world) /\
  sqlite_sequence fresh_world <=
  sqlite_sequence (@serve demo_host demo_requests fresh_world).
Proof.
  apply (counter_stays_ahead (H:=demo_host) demo_requests fresh_world).
  unfold counter_ok. cbn. lia.
Defined.

Lemma rows_keep_shape_witness :
  rows_ok (@serve demo_host demo_requests fresh_world).
Proof.
  apply (rows_keep_shape (H:=demo_host) demo_requests fresh_world).
  unfold rows_ok. cbn. constructor.
Defined.

Lemma delete_removes_exactly_one_witness :
  exists before after,
    notes three_notes =
      before ++ text_row 2 "second" "2024-01-01T00:00:01" :: after /\
    notes (fst (app.delete_note 2 three_notes)) = before ++ after /\
    snd (database.get_note_count (fst (app.delete_note 2 three_notes))) =
    Return (Z.of_nat (List.length (notes three_notes)) - 1).
Proof.
  apply (delete_removes_exactly_one 2 (text_row 2 "second" "2024-01-01T00:00:01")
           three_notes).
  - unfold ids_increasing. cbn. repeat constructor; lia.
  - reflexivity.
  - reflexivity.
Defined.

Lemma created_notes_can_be_fetched_witness :
  match @app.create_note demo_host None None None [a_txt; a_txt] fresh_world with
  | (w', Return r) =>
      Forall (fun c =>
                exists n,
                  app.get_note (app.created_id c) w' =
                    (w', Return (app.mkNoteResponse true n)) /\
                  describes n c)
             (app.create_notes r)
  | (_, Raise _) => False
  end.
Proof.
  destruct (@app.create_note demo_host None None None [a_txt; a_txt] fresh_world)
    as [w' [r|e]] eqn:E.
  - exact (created_notes_can_be_fetched (H:=demo_host) None None None
             [a_txt; a_txt] fresh_world w' r E).
  - vm_compute in E. discriminate.
Defined.

Lemma create_count_matches_witness :
  match @app.create_note demo_host None None None [a_txt; a_txt] fresh_world with
  | (w', Return r) =>
      app.create_count r = 2 /\
      Z.of_nat (List.length (notes w')) =
        Z.of_nat (List.length (notes fresh_world)) + app.create_count r
  | (_, Raise _) => False
  end.
Proof.
  destruct (@app.create_note demo_host None None None [a_txt; a_txt] fresh_world)
    as [w' [r|e]] eqn:E.
  - destruct (create_count_matches (H:=demo_host) None None None
                [a_txt; a_txt] fresh_world w' r E) as (_ & Hrows & _).
    split; [|exact Hrows].
    vm_compute in E. now injection E as _ <-.
  - vm_compute in E. discriminate.
Defined.

Lemma failed_upload_keeps_earlier_files_witness :
  exists w1 rows,
    @app.create_note demo_host None None None ([a_txt] ++ big_bin :: [])
                     fresh_world =
      (w1, Raise (HTTPException 413
                    ("File " +:+ "big.bin" +:+ " is too large (max 50MB)"))) /\
    notes w1 = notes fresh_world ++ rows /\
    Forall2 (fun g n => note_type n = "file" /\ file_name n = app.filename g)
            (named [a_txt]) rows /\
    List.length rows = List.length (named [a_txt]).
Proof.
  apply (failed_upload_keeps_earlier_files (H:=demo_host) None None None
           [a_txt] [] big_bin "big.bin" fresh_world).
  - reflexivity.
  - constructor; [apply a_txt_within_limit|constructor].
  - reflexivity.
  - discriminate.
  - apply big_bin_size.
Defined.

Lemma delete_removes_blob_witness :
  disk (fst (app.delete_note 1 blob_world)) =
    delete (str (Path_of "uploads/0b5e-a.bin")) (disk blob_world) /\
  stdout (fst (app.delete_note 1 blob_world)) = stdout blob_world /\
  fs_calls (fst (app.delete_note 1 blob_world)) =
    fs_calls blob_world ++ [Stat (str (Path_of "uploads/0b5e-a.bin"));
                            Unlink (str (Path_of "uploads/0b5e-a.bin"))].
Proof.
  apply (proj1 (delete_removes_blob 1 pinned_row blob_world eq_refl)
           "uploads/0b5e-a.bin" [x68; x69]).
  - reflexivity.
  - discriminate.
  - vm_compute. reflexivity.
  - vm_compute. set_solver.
Defined.

Lemma upload_then_serve_witness :
  exists w' r n w'' resp,
    @app.create_note demo_host None None None [a_txt] fresh_world =
      (w', Return r) /\
    notes w' = notes fresh_world ++ [n] /\
    file_path n = Some "uploads/0b5e-a.txt" /\
    @app.serve_file demo_host "0b5e-a.txt" w' = (w'', Return resp) /\
    app.response_body resp = app.body a_txt /\
    app.response_filename resp = "0b5e-a.txt".
Proof.
  apply (upload_then_serve (H:=demo_host) None None None a_txt "a.txt"
           fresh_world).
  - reflexivity.
  - discriminate.
  - apply a_txt_within_limit. reflexivity.
  - vm_compute. reflexivity.
Defined.

Lemma upload_then_delete_restores_witness :
  exists w' r i w'',
    @app.create_note demo_host None None None [a_txt] fresh_world =
      (w', Return r) /\
    List.map app.created_id (app.create_notes r) = [i] /\
    app.delete_note i w' =
      (w'', Return (app.mkDeleteResponse true "Note deleted successfully")) /\
    notes w'' = notes fresh_world /\ disk w'' = disk fresh_world /\
    sqlite_sequence w'' = i.
Proof.
  apply (upload_then_delete_restores (H:=demo_host) None None None a_txt "a.txt"
           fresh_world).
  - reflexivity.
  - discriminate.
  - apply a_txt_within_limit. reflexivity.
  - vm_compute. reflexivity.
  - vm_compute. reflexivity.
  - vm_compute. reflexivity.
  - vm_compute. set_solver.
Defined.

Lemma consecutive_pages_witness :
  exists first second both,
    app.get_notes 1 0 None three_notes = (three_notes, Return first) /\
    app.get_notes 1 (0 + 1) None three_notes = (three_notes, Return second) /\
    app.get_notes (2 * 1) 0 None three_notes = (three_notes, Return both) /\
    app.list_notes both = app.list_notes first ++ app.list_notes second /\
    (ids_increasing three_notes ->
     NoDup (List.map id (app.list_notes first ++ app.list_notes second))).
Proof. apply (consecutive_pages 1 0 three_notes); lia. Defined.

Lemma page_beyond_the_end_witness :
  app.get_notes 10 3 None three_notes =
    (three_notes,
     Return (app.mkListResponse true []
               (Z.of_nat (List.length (notes three_notes))) 10 3)) /\
  app.get_notes 0 0 (Some "first") three_notes =
    (three_notes,
     Return (app.mkListResponse true []
               (Z.of_nat (List.length (notes three_notes))) 0 0)).
Proof.
  split.
  - apply (page_beyond_the_end 10 3 None three_notes). left.
    split; [reflexivity|]. cbn. lia.
  - apply (page_beyond_the_end 0 0 (Some "first") three_notes). right.
    reflexivity.
Defined.

Lemma search_stops_at_nul_witness :
  database.search_where
    ("%" +:+ ("he" +:+ String Ascii.zero "zz") +:+ "%")
    (text_row 3 "the" "2024-01-01T00:00:02") = true /\
  database.search_where "%hello%"
    (text_row 1 ("x" +:+ String Ascii.zero "hello") "2024-01-01T00:00:00") =
  false.
Proof.
  split.
  - rewrite (proj2 (search_stops_at_nul
                      "he" "zz" (text_row 3 "the" "2024-01-01T00:00:02")
                      eq_refl)).
    reflexivity.
  - rewrite (proj1 (search_stops_at_nul
                      "" "" (text_row 1 ("x" +:+ String Ascii.zero "hello")
                                      "2024-01-01T00:00:00")
                      eq_refl)).
    reflexivity.
Defined.

Lemma search_ignores_case_witness :
  app.get_notes 100 0 (Some (fold_case "HeLLo")) one_note =
  app.get_notes 100 0 (Some "HeLLo") one_note.
Proof.
  apply (proj1 (search_ignores_case 100 0 "HeLLo" one_note ltac:(discriminate))).
Defined.

Lemma icon_bars_inside_notepad_witness :
  exists notepad bar0 bar1 bar2,
    generate_icons.drawn (generate_icons.create_icon 192 "static/icon-192.png") =
      [notepad; bar0; bar1; bar2] /\
    0 < generate_icons.x0 notepad <= generate_icons.x1 notepad /\
    generate_icons.x1 notepad < 192 /\
    0 < generate_icons.y0 notepad <= generate_icons.y1 notepad /\
    generate_icons.y1 notepad < 192 /\
    Forall (fun bar =>
              generate_icons.x0 notepad <= generate_icons.x0 bar /\
              generate_icons.x0 bar <= generate_icons.x1 bar /\
              generate_icons.x1 bar <= generate_icons.x1 notepad /\
              generate_icons.y0 notepad <= generate_icons.y0 bar /\
              generate_icons.y0 bar <= generate_icons.y1 bar /\
              generate_icons.y1 bar <= generate_icons.y1 notepad)
           [bar0; bar1; bar2] /\
    generate_icons.y1 bar0 < generate_icons.y0 bar1 /\
    generate_icons.y1 bar1 < generate_icons.y0 bar2.
Proof. apply (icon_bars_inside_notepad 192 "static/icon-192.png"). lia. Defined.

(** ** Client file names and the uploads directory *)

Section StoredNames.
Context `{Host}.

Lemma prefix_char (c d : ascii) (s : string) :
  String.prefix (String c "") (String d s) = Ascii.eqb c d.
Proof.
  cbn [String.prefix]. destruct (ascii_dec c d) as [->|Hne].
  - rewrite Ascii.eqb_refl. now destruct s.
  - symmetry. now apply Ascii.eqb_neq.
Qed.

Lemma contains_char_cons (c d : ascii) (s : string) :
  contains (String c "") (String d s) = Ascii.eqb c d || contains (String c "") s.
Proof. cbn [contains]. now rewrite prefix_char. Qed.

Lemma contains_char_app (c : ascii) (a b : string) :
  contains (String c "") (a +:+ b) =
  contains (String c "") a || contains (String c "") b.
Proof.
  induction a as [|d a IH].
  - now destruct b.
  - change (String d a +:+ b) with (String d (a +:+ b)).
    rewrite !contains_char_cons, IH. apply orb_assoc.
Qed.

Lemma count_dots_app (a b : string) :
  count_dots (a +:+ b) = (count_dots a + count_dots b)%nat.
Proof. induction a as [|c a IH]; simpl; [reflexivity|]. rewrite IH. lia. Qed.

Lemma count_dots_none (s : string) :
  contains "." s = false -> count_dots s = 0%nat.
Proof.
  induction s as [|c s IH]; [reflexivity|].
  rewrite contains_char_cons. intros Hc.
  apply orb_false_iff in Hc as [Hc Hs]. cbn [count_dots].
  rewrite Ascii.eqb_sym, Hc. now apply IH.
Qed.

Lemma split_slash_parts (s : string) :
  Forall (fun c => contains "/" c = false) (split_slash s).
Proof.
  induction s as [|c s IH]; [now repeat constructor|].
  cbn [split_slash]. destruct (Ascii.eqb c "/") eqn:E.
  - constructor; [reflexivity|assumption].
  - destruct (split_slash s) as [|h t].
    + constructor; [|constructor].
      now rewrite contains_char_cons, Ascii.eqb_sym, E.
    + inversion IH as [|? ? Hh Ht]; subst. constructor; [|exact Ht].
      now rewrite contains_char_cons, Ascii.eqb_sym, E.
Qed.

Lemma rfind_dot_none (s : string) :
  rfind_dot s = None -> contains "." s = false.
Proof.
  induction s as [|c s IH]; [reflexivity|].
  cbn [rfind_dot]. destruct (rfind_dot s); [discriminate|].
  destruct (Ascii.eqb c ".") eqn:E; [discriminate|]. intros _.
  rewrite contains_char_cons, Ascii.eqb_sym, E. now apply IH.
Qed.

Lemma rfind_dot_some (s t : string) :
  rfind_dot s = Some t ->
  exists pre t', s = pre +:+ t /\ t = String "." t' /\ contains "." t' = false.
Proof.
  revert t. induction s as [|c s IH]; intros t; [discriminate|].
  cbn [rfind_dot]. destruct (rfind_dot s) as [t0|] eqn:E.
  - intros [= <-]. destruct (IH t0 eq_refl) as (pre & t' & -> & Ht & Hd).
    now exists (String c pre), t'.
  - destruct (Ascii.eqb c ".") eqn:Ec; [|discriminate]. intros [= <-].
    apply Ascii.eqb_eq in Ec as ->.
    exists EmptyString, s. repeat split. now apply rfind_dot_none.
Qed.

(** The extension pathlib cuts from a client file name is empty or one
    dot followed by characters that are neither dots nor slashes. *)
Lemma suffix_shape (name : string) :
  suffix (Path_of name) = "" \/
  exists t', suffix (Path_of name) = String "." t' /\
             contains "." t' = false /\ contains "/" t' = false.
Proof.
  unfold suffix.
  assert (Hlast : contains "/" (List.last (parts (Path_of name)) EmptyString)
                  = false).
  { cbn [Path_of parts].
    assert (Hall : Forall (fun c => contains "/" c = false)
                     (List.filter
                        (fun c => negb (String.eqb c "" || String.eqb c "."))
                        (split_slash name))).
    { apply Forall_forall. intros c Hc. apply filter_In in Hc as [Hc _].
      pose proof (split_slash_parts name) as Hp.
      rewrite Forall_forall in Hp. now apply Hp. }
    induction Hall as [|c l Hc Hall IH]; [reflexivity|].
    destruct l; [exact Hc|exact IH]. }
  destruct (List.last (parts (Path_of name)) EmptyString) as [|c rest];
    [now left|].
  destruct (rfind_dot rest) as [t|] eqn:E; [|now left].
  destruct (String.length t =? 1)%nat; [now left|]. right.
  destruct (rfind_dot_some rest t E) as (pre & t' & -> & -> & Hd).
  exists t'. split; [reflexivity|]. split; [assumption|].
  rewrite contains_char_cons in Hlast. apply orb_false_iff in Hlast as [_ Hlast].
  rewrite contains_char_app in Hlast. apply orb_false_iff in Hlast as [_ Hlast].
  rewrite contains_char_cons in Hlast. now apply orb_false_iff in Hlast as [_ Hlast].
Qed.

Lemma two_dots (s : string) :
  contains ".." s = true -> (2 <= count_dots s)%nat.
Proof.
  intros Hc. destruct (contains_split _ _ Hc) as (pre & post & ->).
  rewrite !count_dots_app. cbn. lia.
Qed.

(** A stored name, uuid plus extension, is a plain entry name: no
    slash, no [..], not empty and not [.]. *)
Lemma stored_name_plain (u name : string) :
  uuid_like u ->
  contains "/" (u +:+ suffix (Path_of name)) = false /\
  contains ".." (u +:+ suffix (Path_of name)) = false /\
  String.eqb (u +:+ suffix (Path_of name)) ""
  || String.eqb (u +:+ suffix (Path_of name)) "." = false.
Proof.
  intros (Hne & Hslash & Hdot).
  assert (Hcount : (count_dots (u +:+ suffix (Path_of name)) <= 1)%nat /\
                   contains "/" (u +:+ suffix (Path_of name)) = false).
  { rewrite count_dots_app, contains_char_app, Hslash, (count_dots_none u Hdot).
    destruct (suffix_shape name) as [->|(t' & -> & Hd & Hs)].
    - split; [cbn; lia|reflexivity].
    - rewrite contains_char_cons, Hs. cbn [count_dots Ascii.eqb Bool.eqb].
      rewrite (count_dots_none t' Hd). split; [lia|reflexivity]. }
  destruct Hcount as [Hcount Hs]. split; [assumption|]. split.
  - destruct (contains ".." (u +:+ suffix (Path_of name))) eqn:E; [|reflexivity].
    apply two_dots in E. lia.
  - destruct u as [|c u]; [congruence|].
    change (String c u +:+ suffix (Path_of name))
      with (String c (u +:+ suffix (Path_of name))).
    rewrite contains_char_cons in Hdot. apply orb_false_iff in Hdot as [Hc _].
    cbn [String.eqb]. rewrite Ascii.eqb_sym, Hc. reflexivity.
Qed.

Lemma confined_refl (w : World) : confined w w.
Proof.
  split; [|reflexivity]. exists []. rewrite app_nil_r. split; [reflexivity|constructor].
Qed.

Lemma confined_trans (w w1 w2 : World) :
  confined w w1 -> confined w1 w2 -> confined w w2.
Proof.
  intros [(c1 & Hc1 & Hi1) Hd1] [(c2 & Hc2 & Hi2) Hd2]. split.
  - exists (c1 ++ c2). rewrite Hc2, Hc1, app_assoc. split; [reflexivity|].
    apply Forall_app. now split.
  - intros p Hp. now rewrite (Hd2 p Hp), (Hd1 p Hp).
Qed.

Lemma upload_file_confined (text tg : option string) (f : app.UploadFile)
    (w : World) :
  uuid_like (uuid4 (uuid_draws w)) ->
  confined w (fst (app.upload_file text tg f w)) /\
  (uuid_draws w <= uuid_draws (fst (app.upload_file text tg f w)))%nat.
Proof.
  intros Hu.
  destruct (truthy (app.filename f)) eqn:Hnamed.
  - destruct (truthy_named f Hnamed) as (name & Hf & Hne).
    destruct (Z.ltb_spec app.MAX_UPLOAD (size f)) as [Hbig|Hsmall].
    + rewrite (upload_file_too_large text tg f name w Hf Hne Hbig).
      split; [apply confined_refl|cbn; lia].
    + destruct (upload_file_stored text tg f name w Hf Hne Hsmall) as (n & -> & _).
      destruct (stored_name_plain _ name Hu) as (Hs & Hd & _).
      pose proof (accepted_path_inside _ Hd Hs) as Hin.
      cbn [fst uuid_draws]. split; [|lia]. split.
      * eexists. cbn [fs_calls]. split; [reflexivity|].
        constructor; [exact Hin|constructor].
      * intros p Hp. cbn [disk]. apply lookup_insert_ne.
        intros <-. congruence.
  - rewrite (upload_file_nameless text tg f w Hnamed).
    split; [apply confined_refl|cbn; lia].
Qed.

Lemma upload_files_confined (text tg : option string)
    (files : list app.UploadFile) (created : list app.CreatedNote) (w : World) :
  (forall k, uuid_like (uuid4 k)) ->
  confined w (fst (app.upload_files text tg files created w)).
Proof.
  intros Hu. revert created w.
  induction files as [|f files IH]; intros created w.
  - apply confined_refl.
  - rewrite upload_files_cons.
    destruct (upload_file_confined text tg f w (Hu _)) as [Hf _].
    destruct (app.upload_file text tg f w) as [w1 [r|e]]; cbn [fst] in *.
    + eapply confined_trans; [exact Hf|apply IH].
    + exact Hf.
Qed.

(** X15. Whatever file names the client sends, a creation request calls
    the file system only on paths inside the uploads directory and
    changes nothing on disk outside it; the uuids have to be what uuid4
    gives, non-empty strings without slash or dot. *)
Theorem upload_stays_in_uploads (text link tg : option string)
    (files : list app.UploadFile) (w : World) :
  (forall k, uuid_like (uuid4 k)) ->
  confined w (fst (app.create_note text link tg files w)).
Proof.
  intros Hu. unfold app.create_note, bind.
  destruct (app.has_upload files).
  - pose proof (upload_files_confined text tg files [] w Hu) as Hc.
    now destruct (app.upload_files text tg files [] w) as [w1 [cs|e]].
  - destruct (truthy link); [|destruct (truthy text)];
      rewrite ?create_note_run; cbn [fst raise];
      (split; [exists []; cbn [fs_calls]; rewrite app_nil_r;
               split; [reflexivity|constructor]|reflexivity]).
Qed.

Lemma contains_app_r (sub a b : string) :
  contains sub b = true -> contains sub (a +:+ b) = true.
Proof.
  intros Hb. induction a as [|c a IH]; [exact Hb|].
  change (String c a +:+ b) with (String c (a +:+ b)).
  cbn [contains]. rewrite IH. apply orb_true_r.
Qed.

(** X16. A file whose extension holds a backslash is stored, and its
    note is written, but the stored name is one the download guard
    refuses: asking for it is answered with 400. *)
Theorem backslash_extension_not_served (text link tg : option string)
    (f : app.UploadFile) (name : string) (w : World) :
  app.filename f = Some name -> name <> "" -> size f <= app.MAX_UPLOAD ->
  contains "\" (suffix (Path_of name)) = true ->
  exists w' r n,
    app.create_note text link tg [f] w = (w', Return r) /\
    notes w' = notes w ++ [n] /\
    file_path n =
      Some ("uploads/" +:+ uuid4 (uuid_draws w) +:+ suffix (Path_of name)) /\
    app.serve_file (uuid4 (uuid_draws w) +:+ suffix (Path_of name)) w' =
      (w', Raise (HTTPException 400 "Invalid filename")).
Proof.
  intros Hf Hne Hsmall Hback.
  assert (Hu : app.has_upload [f] = true).
  { cbn [app.has_upload]. rewrite Hf. destruct name; [congruence|reflexivity]. }
  rewrite (create_note_upload _ _ _ _ _ Hu), upload_files_cons.
  destruct (upload_file_stored text tg f name w Hf Hne Hsmall)
    as (n & -> & _ & _ & _ & Hfp & _).
  cbn [app.upload_files ret].
  eexists _, _, n. split; [reflexivity|]. split; [reflexivity|].
  split; [exact Hfp|].
  unfold app.serve_file.
  now rewrite (contains_app_r "\" (uuid4 (uuid_draws w)) _ Hback), orb_true_r.
Qed.

End StoredNames.

Lemma tally_uuid_like (k : nat) : uuid_like (tally k).
Proof.
  induction k as [|k (Hne & Hs & Hd)].
  - repeat split; discriminate.
  - repeat split; [discriminate| |]; cbn [tally];
      rewrite contains_char_cons; cbn [Ascii.eqb Bool.eqb orb]; assumption.
Qed.

Lemma upload_stays_in_uploads_witness :
  confined fresh_world
    (fst (@app.create_note tally_host None None None
            [app.mkUploadFile (Some "../../etc/passwd.d/x.conf") None [x68]]
            fresh_world)).
Proof.
  apply (upload_stays_in_uploads (H:=tally_host)). exact tally_uuid_like.
Defined.

Lemma backslash_extension_not_served_witness :
  exists w' r n,
    @app.create_note demo_host None None None
      [app.mkUploadFile (Some "notes.v1\draft") None [x68]] fresh_world =
      (w', Return r) /\
    notes w' = notes fresh_world ++ [n] /\
    file_path n = Some "uploads/0b5e-a.v1\draft" /\
    @app.serve_file demo_host "0b5e-a.v1\draft" w' =
      (w', Raise (HTTPException 400 "Invalid filename")).
Proof.
  apply (backslash_extension_not_served (H:=demo_host) None None None
           (app.mkUploadFile (Some "notes.v1\draft") None [x68])
           "notes.v1\draft" fresh_world).
  - reflexivity.
  - discriminate.
  - unfold size, app.MAX_UPLOAD. cbn. lia.
  - vm_compute. reflexivity.
Defined.
